(** * SARAL chatbot: a shallow embedding of the retrieval-and-generation core

    The development follows the Python package [saral_chatbot] module by
    module: text primitives of the Python runtime, [generation/safety.py],
    [ingestion/chunker.py], [types.py], [retrieval/vector_store.py],
    [retrieval/retriever.py], [generation/prompt_builder.py],
    [generation/generator.py] and [pipeline.py].

    Conventions.
    - Python [str] is [string]; a character is an 8-bit [ascii] read as an
      ASCII code point (characters above 127 are neither letters nor
      whitespace here).
    - Python [int] is [Z] wherever a negative value can reach the code
      ([k], [index], [chunk_size], [overlap]); lengths and positions that
      the code computes itself are [nat].
    - Python [float] values and numpy arrays are never inspected by the
      code outside [VectorStore.similarity_search]; they are carried as the
      types [Score] and [Embedding] of the class [FloatKernel]. *)

From Stdlib Require Import String Ascii List ZArith Lia Bool Arith Sorted.
From Stdlib Require Import DecimalString DecimalNat DecimalZ.
Import ListNotations.

Local Open Scope list_scope.
Local Open Scope string_scope.
Local Open Scope nat_scope.

(* ------------------------------------------------------------------ *)
(** * Text primitives of the Python runtime *)

Module PyStr.

(** The double-quote character, for f-strings that contain one. *)
Definition dq : string := String (ascii_of_nat 34) EmptyString.

(** [str.isspace] on ASCII: TAB, LF, VT, FF, CR, FS, GS, RS, US, SPACE. *)
Definition is_space (c : ascii) : bool :=
  let n := nat_of_ascii c in
  ((9 <=? n)%nat && (n <=? 13)%nat) || ((28 <=? n)%nat && (n <=? 32)%nat).

(** The character class [[.!?]] of the sentence pattern. *)
Definition is_punct (c : ascii) : bool :=
  let n := nat_of_ascii c in
  (n =? 46)%nat || (n =? 33)%nat || (n =? 63)%nat.

Definition lower_char (c : ascii) : ascii :=
  let n := nat_of_ascii c in
  if (65 <=? n)%nat && (n <=? 90)%nat then ascii_of_nat (n + 32) else c.

(** [str.lower]. *)
Fixpoint lower (s : string) : string :=
  match s with
  | EmptyString => EmptyString
  | String c s' => String (lower_char c) (lower s')
  end.

(** [sub in s]. *)
Fixpoint contains (sub s : string) : bool :=
  prefix sub s ||
  match s with
  | EmptyString => false
  | String _ s' => contains sub s'
  end.

(** [str.replace(old, new)] for a non-empty [old]: matches are found left
    to right and do not overlap.  [skip] counts the characters of a match
    that are still to be consumed. *)
Fixpoint replace_from (old new : string) (skip : nat) (s : string) : string :=
  match s with
  | EmptyString => EmptyString
  | String c s' =>
      match skip with
      | S k => replace_from old new k s'
      | O =>
          if prefix old s
          then new ++ replace_from old new (String.length old - 1) s'
          else String c (replace_from old new 0 s')
      end
  end.

Definition replace (old new s : string) : string := replace_from old new 0 s.

(** [re.sub(pattern, repl, s, flags=re.IGNORECASE)] for a pattern that is a
    non-empty literal without metacharacters and a replacement without
    escapes: the same scan, comparing case-insensitively. *)
Fixpoint sub_ignorecase_from (pat repl : string) (skip : nat) (s : string) : string :=
  match s with
  | EmptyString => EmptyString
  | String c s' =>
      match skip with
      | S k => sub_ignorecase_from pat repl k s'
      | O =>
          if prefix (lower pat) (lower s)
          then repl ++ sub_ignorecase_from pat repl (String.length pat - 1) s'
          else String c (sub_ignorecase_from pat repl 0 s')
      end
  end.

Definition sub_ignorecase (pat repl s : string) : string :=
  sub_ignorecase_from pat repl 0 s.

(** [str.lstrip], [str.rstrip], [str.strip] without arguments. *)
Fixpoint lstrip (s : string) : string :=
  match s with
  | EmptyString => EmptyString
  | String c s' => if is_space c then lstrip s' else s
  end.

Fixpoint rstrip (s : string) : string :=
  match s with
  | EmptyString => EmptyString
  | String c s' =>
      match rstrip s' with
      | EmptyString => if is_space c then EmptyString else String c EmptyString
      | r => String c r
      end
  end.

Definition strip (s : string) : string := rstrip (lstrip s).

(** Put a character in front of the piece that is being read. *)
Definition push (c : ascii) (l : list string) : list string :=
  match l with
  | [] => [String c EmptyString]
  | p :: r => String c p :: r
  end.

(** [str.split()] without arguments: the maximal runs of non-whitespace. *)
Fixpoint split (s : string) : list string :=
  match s with
  | EmptyString => []
  | String c s' =>
      if is_space c then split s'
      else
        match s' with
        | EmptyString => [String c EmptyString]
        | String c' _ =>
            if is_space c' then String c EmptyString :: split s'
            else push c (split s')
        end
  end.

(** [sep.join(l)]. *)
Fixpoint join (sep : string) (l : list string) : string :=
  match l with
  | [] => EmptyString
  | [x] => x
  | x :: r => x ++ sep ++ join sep r
  end.

(** The length of [" ".join(l)]: the characters of the pieces and one
    separator between neighbours. *)
Definition weight (l : list string) : nat :=
  list_sum (map String.length l) + (length l - 1).

(** [s[:n]] for [n >= 0]. *)
Definition take (n : nat) (s : string) : string := substring 0 n s.

(** [str(n)] for a non-negative and for an arbitrary integer. *)
Definition str_nat (n : nat) : string := NilEmpty.string_of_uint (Nat.to_uint n).
Definition str_Z (z : Z) : string := NilEmpty.string_of_int (Z.to_int z).

(** [str(x)] where [x] is [Optional[str]]. *)
Definition str_opt (o : option string) : string :=
  match o with Some s => s | None => "None" end.

(** [re.split(r"(?<=[.!?])\s+", s)]: a separator is a maximal run of
    whitespace that starts right after one of [. ! ?].  [in_sep] says that
    the scan is inside a separator, [prev_punct] that the character before
    the current one is one of [. ! ?]. *)
Fixpoint re_split_from (in_sep prev_punct : bool) (s : string) : list string :=
  match s with
  | EmptyString => [EmptyString]
  | String c s' =>
      if in_sep then
        if is_space c then re_split_from true false s'
        else push c (re_split_from false (is_punct c) s')
      else if is_space c && prev_punct then EmptyString :: re_split_from true false s'
      else push c (re_split_from false (is_punct c) s')
  end.

Definition re_split_sentences (s : string) : list string :=
  re_split_from false false s.

Definition nonempty (s : string) : bool :=
  match s with EmptyString => false | _ => true end.

(** No character of [t] is whitespace. *)
Fixpoint no_space (t : string) : bool :=
  match t with
  | EmptyString => true
  | String c t' => negb (is_space c) && no_space t'
  end.

(** A word: non-empty and free of whitespace. *)
Definition token (t : string) : Prop := t <> EmptyString /\ no_space t = true.

End PyStr.

(* ------------------------------------------------------------------ *)
(** * generation/safety.py *)

Module Safety.
Import PyStr.

(** [BLOCKED_TERMS].  The source holds them in a [set]; the three
    replacements commute (no term overlaps another or the marker), so the
    iteration order of the set does not show in the result. *)
Definition BLOCKED_TERMS : list string := ["hate"; "kill"; "slur"].

Definition JARGON_MAP : list (string * string) :=
  [ ("non-stationary diffusion", "changing diffusion patterns");
    ("anthropogenic", "human-caused") ].

Definition block_term (lowered : string) (text term : string) : string :=
  if contains term lowered then replace term "[removed]" text else text.

Definition gloss (jargon simple : string) : string :=
  simple ++ " (formerly " ++ dq ++ jargon ++ dq ++ ")".

Definition enforce_safety (text : string) : string :=
  let lowered := lower text in
  let text := fold_left (block_term lowered) BLOCKED_TERMS text in
  fold_left (fun t js => sub_ignorecase (fst js) (gloss (fst js) (snd js)) t)
            JARGON_MAP text.

Definition describe_safety_rules : list string :=
  [ "Do not include hateful or violent language.";
    "Prefer people-first, accessible phrasing.";
    "Flag if provenance is missing before presenting a claim." ].

End Safety.

(* ------------------------------------------------------------------ *)
(** * Python lists and exceptions *)

Module PyList.

(** [l[-k:]] for an arbitrary integer [k]: the start index [-k] counts from
    the end when it is negative and is clamped to the list.  For [k = 0]
    the start index is [0] and the slice is the whole list. *)
Definition slice_last {A : Type} (k : Z) (l : list A) : list A :=
  let n := Z.of_nat (length l) in
  let start := if (0 <? k)%Z then Z.max (n - k) 0 else Z.min (- k) n in
  skipn (Z.to_nat start) l.

(** [l[i] = x] for [i] in range (the callers check the range first). *)
Fixpoint set_nth {A : Type} (i : nat) (x : A) (l : list A) : list A :=
  match l, i with
  | [], _ => []
  | _ :: r, O => x :: r
  | y :: r, S j => y :: set_nth j x r
  end.

End PyList.

Inductive exn : Type :=
| RuntimeError | ValueError | IndexError | AttributeError | TypeError
| LoaderError | BackendError.

Inductive result (A : Type) : Type :=
| Ok (a : A)
| Raise (e : exn).
Arguments Ok {A} a.
Arguments Raise {A} e.

Definition is_raise {A : Type} (r : result A) : bool :=
  match r with Ok _ => false | Raise _ => true end.

(** numpy and the float type: the arithmetic of lines 26-28 of
    [vector_store.py] is [cosine] (the score of one stored row against the
    query), [score_leb] is [<=] on floats, [tolist] is [ndarray.tolist],
    [format_3f] the format specification [:.3f] and [zero] the float
    [0.0]. *)
Class FloatKernel : Type := {
  Score : Type;
  Embedding : Type;
  score_leb : Score -> Score -> bool;
  cosine : Embedding -> Embedding -> Score;
  tolist : Embedding -> list Score;
  format_3f : Score -> string;
  zero : Score
}.

(** [<=] is a total preorder on the scores that occur (no NaN). *)
Definition leb_total `{FloatKernel} : Prop :=
  forall a b : Score, score_leb a b = true \/ score_leb b a = true.
Definition leb_trans `{FloatKernel} : Prop :=
  forall a b c : Score,
    score_leb a b = true -> score_leb b c = true -> score_leb a c = true.

(** [EmbeddingManager.embed]: the backend is external; [None] when it
    raises. *)
Class EmbeddingBackend `{FloatKernel} : Type := {
  embed : list string -> option (list Embedding)
}.

(** [BaseLanguageModel.generate]; [None] when the backend raises. *)
Class LanguageModel : Type := {
  lm_generate : string -> option string
}.

(** [load_document]: the text and the page map in insertion order; [None]
    when the file is missing or of an unsupported type. *)
Class DocumentLoader : Type := {
  load_document : string -> option (string * list (Z * string))
}.

(* ------------------------------------------------------------------ *)
(** * types.py *)

Module Types.

Inductive AudienceStyle : Type := TECHNICAL | PLAIN | PRESS.

Definition AudienceStyle_value (s : AudienceStyle) : string :=
  match s with
  | TECHNICAL => "technical"
  | PLAIN => "plain"
  | PRESS => "press"
  end.

Inductive Duration : Type := SHORT_30S | MEDIUM_90S | LONG_5MIN.

Definition Duration_value (d : Duration) : string :=
  match d with
  | SHORT_30S => "30s"
  | MEDIUM_90S => "90s"
  | LONG_5MIN => "5min"
  end.

Record AudienceProfile : Type := {
  label : string;
  style : AudienceStyle;
  expertise_notes : string;
  tone_directives : list string
}.

Record GenerationConfig : Type := {
  duration : Duration;
  cfg_style : AudienceStyle;
  include_tweets : bool;
  include_linkedin : bool;
  include_speaker_notes : bool;
  safety_checks : bool
}.

Record ChangeRecord : Type := {
  timestamp : Z;
  user_request : string;
  target_section : string;
  before : string;
  after : string;
  rationale : string
}.

Section WithFloats.
Context `{FK : FloatKernel}.

Record Provenance : Type := {
  chunk_id : string;
  page : option string;
  score : Score
}.

Record ContentBlock : Type := {
  text : string;
  provenance : list Provenance
}.

Record GenerationOutput : Type := {
  slides : list ContentBlock;
  script : list ContentBlock;
  notes : list ContentBlock;
  tweets : list ContentBlock;
  linkedin_summaries : list ContentBlock;
  metadata : list (string * string)
}.

Record RetrievedChunk : Type := {
  rc_chunk_id : string;
  rc_text : string;
  rc_page : option string;
  rc_embedding : option (list Score);
  rc_metadata : list (string * string)
}.

Record RetrievalResult : Type := {
  chunk : RetrievedChunk;
  rr_score : Score
}.

End WithFloats.

(** A [GenerationOutput] is a mutable object that the session and the
    conversation log share; a turn holds its address in the session's
    object store, not a copy. *)
Definition address : Type := nat.

Record ConversationTurn : Type := {
  role : string;
  content : string;
  output_snapshot : option address;
  change_record : option ChangeRecord
}.

Record ConversationLog : Type := {
  session_id : string;
  turns : list ConversationTurn
}.

End Types.

(* ------------------------------------------------------------------ *)
(** * ingestion/chunker.py *)

Module Chunker.
Import PyStr PyList Types.

Record ChunkConfig : Type := {
  chunk_size : Z;
  overlap : Z
}.

Definition default_ChunkConfig : ChunkConfig :=
  {| chunk_size := 500; overlap := 120 |}.

Definition simple_sentence_split (text : string) : list string :=
  let sentences := re_split_sentences (strip text) in
  map strip (filter (fun s => nonempty (strip s)) sentences).

(** [_infer_page]: the page map is a dict in insertion order. *)
Fixpoint infer_page_from (pointer cumulative : nat) (pages : list (Z * string))
  : option string :=
  match pages with
  | [] => None
  | (page_number, content) :: rest =>
      let cumulative := cumulative + String.length content in
      if pointer <=? cumulative then Some (str_Z page_number)
      else infer_page_from pointer cumulative rest
  end.

Definition max_key (pages : list (Z * string)) : Z :=
  match pages with
  | [] => 0%Z
  | (k, _) :: rest => fold_left Z.max (map fst rest) k
  end.

Definition _infer_page (pointer : nat) (page_map : list (Z * string)) : string :=
  match page_map with
  | [] => "?"
  | _ =>
      match infer_page_from pointer 0 page_map with
      | Some p => p
      | None => str_Z (max_key page_map)
      end
  end.

(** [f"chunk_{n}"]. *)
Definition chunk_name (n : nat) : string := "chunk_" ++ str_nat n.

Section WithFloats.
Context `{FK : FloatKernel}.

(** The loop state of [chunk_text]. *)
Record ChunkState : Type := {
  window : list string;
  chunks : list RetrievedChunk;
  pointer : nat
}.

Definition new_chunk (n : nat) (body : string) (pointer : nat)
    (page_map : list (Z * string)) : RetrievedChunk :=
  {| rc_chunk_id := chunk_name n;
     rc_text := body;
     rc_page := Some (_infer_page pointer page_map);
     rc_embedding := None;
     rc_metadata := [] |}.

(** One iteration of the loop over the sentences. *)
Definition chunk_step (page_map : list (Z * string)) (config : ChunkConfig)
    (st : ChunkState) (sentence : string) : ChunkState :=
  let window := (window st ++ [sentence])%list in
  let pointer := pointer st + String.length sentence in
  let joined := join " " window in
  if (chunk_size config <=? Z.of_nat (String.length joined))%Z then
    {| window :=
         if (0 <? overlap config)%Z
         then [join " " (slice_last (overlap config) (split joined))]
         else [];
       chunks :=
         (chunks st ++ [new_chunk (length (chunks st)) joined pointer page_map])%list;
       pointer := pointer |}
  else
    {| window := window; chunks := chunks st; pointer := pointer |}.

Definition chunk_loop (page_map : list (Z * string)) (config : ChunkConfig)
    (sentences : list string) : ChunkState :=
  fold_left (chunk_step page_map config) sentences
            {| window := []; chunks := []; pointer := 0 |}.

Definition chunk_text (full_text : string) (page_map : list (Z * string))
    (config : ChunkConfig) : list RetrievedChunk :=
  let st := chunk_loop page_map config (simple_sentence_split full_text) in
  match window st with
  | [] => chunks st
  | _ =>
      (chunks st ++
       [new_chunk (length (chunks st)) (join " " (window st)) (pointer st) page_map])%list
  end.

(** The ids of the chunks emitted so far are [chunk_0], [chunk_1], ... *)
Definition numbered (cs : list RetrievedChunk) : Prop :=
  map rc_chunk_id cs = map chunk_name (seq 0 (length cs)).

End WithFloats.
End Chunker.

(* ------------------------------------------------------------------ *)
(** * retrieval/vector_store.py *)

Module VectorStore.
Import PyList Types.

Section WithFloats.
Context `{FK : FloatKernel}.

Record VectorStore : Type := {
  embeddings : list Embedding;
  chunks : list RetrievedChunk
}.

Definition empty : VectorStore := {| embeddings := []; chunks := [] |}.

Definition add (st : VectorStore) (c : RetrievedChunk) (e : Embedding) : VectorStore :=
  {| embeddings := (embeddings st ++ [e])%list; chunks := (chunks st ++ [c])%list |}.

(** [scores = doc_norms @ query_norm]: one cosine score per stored row. *)
Definition cosine_scores (st : VectorStore) (query_embedding : Embedding) : list Score :=
  map (fun row => cosine row query_embedding) (embeddings st).

(** [scores.argsort()]: the indices in ascending order of score.  numpy's
    default sort gives no promise on the order of equal scores; the model
    is the stable insertion sort it runs on short arrays, so equal scores
    keep their insertion order in the ascending list. *)
Fixpoint insert_index (i : nat * Score) (l : list (nat * Score)) : list (nat * Score) :=
  match l with
  | [] => [i]
  | j :: r =>
      if score_leb (snd i) (snd j) then i :: l else j :: insert_index i r
  end.

Definition argsort (scores : list Score) : list (nat * Score) :=
  fold_right insert_index [] (combine (seq 0 (length scores)) scores).

(** [best_idx = scores.argsort()[-k:][::-1]], each index with its score. *)
Definition best_idx (scores : list Score) (k : Z) : list (nat * Score) :=
  rev (slice_last k (argsort scores)).

(** The list comprehension of the last line; [self.chunks[i]] raises
    [IndexError] when the two tables of the store differ in length. *)
Fixpoint collect_results (cs : list RetrievedChunk) (idx : list (nat * Score))
  : result (list RetrievalResult) :=
  match idx with
  | [] => Ok []
  | (i, s) :: rest =>
      match nth_error cs i with
      | None => Raise IndexError
      | Some c =>
          match collect_results cs rest with
          | Ok l => Ok ({| chunk := c; rr_score := s |} :: l)
          | Raise e => Raise e
          end
      end
  end.

Definition similarity_search (st : VectorStore) (query_embedding : Embedding) (k : Z)
  : result (list RetrievalResult) :=
  match embeddings st with
  | [] => Ok []
  | _ => collect_results (chunks st) (best_idx (cosine_scores st query_embedding) k)
  end.

(** The two tables of a store built by [add] have the same length. *)
Definition wf_store (st : VectorStore) : Prop :=
  length (chunks st) = length (embeddings st).

(** Ascending order of score in which equal scores keep the order of
    insertion, and its converse. *)
Definition asc_stable (p q : nat * Score) : Prop :=
  score_leb (snd p) (snd q) = true
  /\ (score_leb (snd q) (snd p) = true -> fst p < fst q).

Definition desc_stable (p q : nat * Score) : Prop := asc_stable q p.

(** A list of (row, score) pairs in descending order of score, a later row
    before an earlier one of the same score. *)
Definition ranked (l : list (nat * Score)) : Prop := StronglySorted desc_stable l.

(** The result [r] is row [fst z] of the store with its score [snd z]. *)
Definition picks (st : VectorStore) (query_embedding : Embedding)
    (z : nat * Score) (r : RetrievalResult) : Prop :=
  nth_error (chunks st) (fst z) = Some (chunk r)
  /\ rr_score r = snd z
  /\ nth_error (cosine_scores st query_embedding) (fst z) = Some (snd z).

(** Scores from the best down. *)
Definition by_score_desc (l : list RetrievalResult) : Prop :=
  StronglySorted (fun r1 r2 => score_leb (rr_score r2) (rr_score r1) = true) l.

End WithFloats.
End VectorStore.

(* ------------------------------------------------------------------ *)
(** * retrieval/retriever.py *)

Module Retriever.
Import Types.

Section WithFloats.
Context `{FK : FloatKernel} `{EB : !EmbeddingBackend}.

(** The [embedding_manager] field is the instance [EB]. *)
Record Retriever : Type := {
  store : VectorStore.VectorStore
}.

Definition with_embedding (c : RetrievedChunk) (e : Embedding) : RetrievedChunk :=
  {| rc_chunk_id := rc_chunk_id c;
     rc_text := rc_text c;
     rc_page := rc_page c;
     rc_embedding := Some (tolist e);
     rc_metadata := rc_metadata c |}.

(** The loop over [zip(chunks, embeddings)].  The store holds the chunk
    object itself, so the embedding written to the chunk after [store.add]
    is the one the store shows. *)
Definition add_all (pairs : list (RetrievedChunk * Embedding)) : VectorStore.VectorStore :=
  fold_left (fun st ce => VectorStore.add st (with_embedding (fst ce) (snd ce)) (snd ce))
            pairs VectorStore.empty.

Definition from_chunks (chunks : list RetrievedChunk) : result Retriever :=
  match embed (map rc_text chunks) with
  | None => Raise BackendError
  | Some embeddings => Ok {| store := add_all (combine chunks embeddings) |}
  end.

Definition query (r : Retriever) (prompt : string) (k : Z)
  : result (list RetrievalResult) :=
  match embed [prompt] with
  | None => Raise BackendError
  | Some [] => Raise IndexError
  | Some (query_vector :: _) => VectorStore.similarity_search (store r) query_vector k
  end.

End WithFloats.
End Retriever.

(* ------------------------------------------------------------------ *)
(** * generation/prompt_builder.py *)

Module PromptBuilder.
Import PyStr Types.

Definition nl : string := String (ascii_of_nat 10) EmptyString.

Definition STYLE_TIPS (s : AudienceStyle) : string :=
  match s with
  | TECHNICAL => "Use precise terminology, cite equations inline with LaTeX"
  | PLAIN => "Favor analogies, avoid acronyms without expansion"
  | PRESS => "Write punchy, quotable bullets with impact stats"
  end.

Definition DURATION_BOUNDS (d : Duration) : nat :=
  match d with
  | SHORT_30S => 120
  | MEDIUM_90S => 260
  | LONG_5MIN => 700
  end.

(** [x or y] on strings. *)
Definition or_else (x y : string) : string :=
  match x with EmptyString => y | _ => x end.

Section WithFloats.
Context `{FK : FloatKernel}.

Definition source_entry (idx : nat) (r : RetrievalResult) : string :=
  "[Source " ++ str_nat idx ++ " | chunk=" ++ rc_chunk_id (chunk r)
  ++ " | page=" ++ str_opt (rc_page (chunk r))
  ++ " | score=" ++ format_3f (rr_score r) ++ "]" ++ nl ++ rc_text (chunk r).

Definition build_prompt (instruction : string) (context_chunks : list RetrievalResult)
    (audience : AudienceProfile) (duration : Duration)
    (safety_directives : option (list string)) : string :=
  let context_text :=
    map (fun ir => source_entry (fst ir) (snd ir))
        (combine (seq 1 (length context_chunks)) context_chunks) in
  let context_block := join (nl ++ nl) context_text in
  let safety := join nl (match safety_directives with Some l => l | None => [] end) in
  let tip := STYLE_TIPS (style audience) in
  let max_tokens := DURATION_BOUNDS duration in
  strip
    (nl ++ "You are SARAL, a fact-grounded assistant that writes audience-specific presentations."
     ++ nl ++ "Instruction: " ++ instruction
     ++ nl ++ "Audience: " ++ label audience
     ++ nl ++ "Tone guidance: " ++ or_else (join ", " (tone_directives audience)) "default"
     ++ nl ++ "Style tips: " ++ tip
     ++ nl ++ "Context budget: " ++ str_nat max_tokens ++ " sentences."
     ++ nl ++ "Safety requirements: "
     ++ or_else safety
          "Avoid offensive or exclusionary language. Prefer accessible descriptions."
     ++ nl ++ "Use inline citations of the form (chunk-id @ page) for every sentence referencing the sources below."
     ++ nl ++ nl ++ "Sources:" ++ nl ++ context_block ++ nl).

End WithFloats.
End PromptBuilder.

(* ------------------------------------------------------------------ *)
(** * generation/generator.py *)

Module Generator.
Import PyStr PyList Types.

Definition SLIDE_BUDGET (d : Duration) : nat :=
  match d with
  | SHORT_30S => 3
  | MEDIUM_90S => 5
  | LONG_5MIN => 7
  end.

Definition SCRIPT_SENTENCES (d : Duration) : nat :=
  match d with
  | SHORT_30S => 6
  | MEDIUM_90S => 14
  | LONG_5MIN => 30
  end.

Definition _style_prefix (s : AudienceStyle) : string :=
  match s with
  | TECHNICAL => "Technical insight:"
  | PLAIN => "Plain-language take:"
  | PRESS => "Headline:"
  end.

Section WithFloats.
Context `{FK : FloatKernel}.

Definition _apply_style (block : ContentBlock) (style : AudienceStyle)
    (prefix : bool) (index : nat) : ContentBlock :=
  let styled :=
    if prefix
    then "Slide " ++ str_nat index ++ " - " ++ _style_prefix style ++ " " ++ text block
    else _style_prefix style ++ " " ++ text block in
  {| text := styled; provenance := provenance block |}.

(** The inner loop of the first phase: the sentences of one match, each
    filtered and tagged with the match it comes from. *)
Definition sentences_of (r : RetrievalResult) : list ContentBlock :=
  map (fun sentence =>
         {| text := Safety.enforce_safety sentence;
            provenance :=
              [ {| chunk_id := rc_chunk_id (chunk r);
                   page := rc_page (chunk r);
                   score := rr_score r |} ] |})
      (Chunker.simple_sentence_split (rc_text (chunk r))).

Definition collect_sentences (retrievals : list RetrievalResult) : list ContentBlock :=
  flat_map sentences_of retrievals.

Definition empty_block : ContentBlock := {| text := ""; provenance := [] |}.
Definition no_provenance : Provenance :=
  {| chunk_id := ""; page := None; score := zero |}.

(** [sentences[idx]] and [block.provenance[0]]: both subscripts are in
    range wherever the generator uses them, so the defaults never show. *)
Definition sentence_at (sentences : list ContentBlock) (idx : nat) : ContentBlock :=
  nth idx sentences empty_block.
Definition first_provenance (b : ContentBlock) : Provenance :=
  nth 0 (provenance b) no_provenance.

Definition note_of (sentences : list ContentBlock) (idx : nat) : ContentBlock :=
  {| text := "Speaker note " ++ str_nat (idx + 1) ++ ": Expand on "
             ++ text (sentence_at sentences idx) ++ " with a visual cue.";
     provenance := provenance (sentence_at sentences idx) |}.

Definition tweet_of (block : ContentBlock) : ContentBlock :=
  let tweet_text :=
    text block ++ " (" ++ chunk_id (first_provenance block) ++ "@p"
    ++ str_opt (page (first_provenance block)) ++ ")" in
  {| text := take 260 tweet_text; provenance := provenance block |}.

Definition linkedin_of (sentences : list ContentBlock) : ContentBlock :=
  let chunk := firstn 5 sentences in
  let merged := join " " (map text chunk) in
  {| text := take 900 merged; provenance := flat_map provenance chunk |}.

Definition rule_metadata (instruction : string) (config : GenerationConfig)
    (audience : AudienceProfile) : list (string * string) :=
  [ ("instruction", instruction);
    ("audience", label audience);
    ("style", AudienceStyle_value (style audience));
    ("duration", Duration_value (duration config)) ].

(** [RuleBasedGenerator.generate_outputs]. *)
Definition rule_based_generate_outputs (instruction : string)
    (retrievals : list RetrievalResult) (config : GenerationConfig)
    (audience : AudienceProfile) : GenerationOutput :=
  let sentences := collect_sentences retrievals in
  let script_budget := SCRIPT_SENTENCES (duration config) in
  let slides_budget := SLIDE_BUDGET (duration config) in
  let loop := seq 0 (min slides_budget (length sentences)) in
  {| slides :=
       map (fun idx => _apply_style (sentence_at sentences idx) (style audience)
                                    true (idx + 1)) loop;
     script := firstn script_budget sentences;
     notes :=
       if include_speaker_notes config then map (note_of sentences) loop else [];
     tweets :=
       if include_tweets config
       then map tweet_of (firstn (slides_budget * 2) sentences) else [];
     linkedin_summaries :=
       if include_linkedin config then [linkedin_of sentences] else [];
     metadata := rule_metadata instruction config audience |}.

(** Every block of an output, section by section. *)
Definition all_blocks (out : GenerationOutput) : list ContentBlock :=
  (slides out ++ script out ++ notes out ++ tweets out ++ linkedin_summaries out)%list.

(** The block cites chunks of the given matches only. *)
Definition cites_only (retrievals : list RetrievalResult) (b : ContentBlock) : Prop :=
  forall p, In p (provenance b) ->
            In (chunk_id p) (map (fun r => rc_chunk_id (chunk r)) retrievals).

(** ** The model-backed strategy *)

(** What [json.loads] returns: Python values. *)
#[local] Set Warnings "-register-all".
Inductive Json : Type :=
| JNull
| JBool (b : bool)
| JInt (z : Z)
| JFloat (x : Score)
| JStr (s : string)
| JArr (items : list Json)
| JObj (fields : list (string * Json)).

(** [IllTyped] marks a decoded block whose text is not a string: Python
    would store the value as it is, which the declared type [str] of
    [ContentBlock.text] excludes. *)
Inductive llm_error : Type :=
| PyExn (e : exn)
| IllTyped.

(** The runtime functions the model-backed strategy calls on decoded
    values: [json.loads] ([None] for [JSONDecodeError]) and the builtins
    [str] and [float]. *)
Class PyRuntime : Type := {
  json_loads : string -> option Json;
  py_str : Json -> string;
  py_float : Json -> result Score
}.

Context `{LM : LanguageModel} `{RT : PyRuntime}.

(** [d.get(key, default)] on a decoded object (its keys are unique). *)
Fixpoint dict_get (fields : list (string * Json)) (key : string) (default : Json) : Json :=
  match fields with
  | [] => default
  | (k, v) :: rest => if String.eqb k key then v else dict_get rest key default
  end.

Definition json_get (j : Json) (key : string) (default : Json)
  : llm_error + Json :=
  match j with
  | JObj fields => inr (dict_get fields key default)
  | _ => inl (PyExn AttributeError)
  end.

(** [for item in items]. *)
Definition iterate (items : Json) : llm_error + list Json :=
  match items with
  | JArr l => inr l
  | JStr s => inr (map (fun c => JStr (String c EmptyString)) (list_ascii_of_string s))
  | JObj fields => inr (map (fun kv => JStr (fst kv)) fields)
  | _ => inl (PyExn TypeError)
  end.

Fixpoint traverse {A B : Type} (f : A -> llm_error + B) (l : list A)
  : llm_error + list B :=
  match l with
  | [] => inr []
  | x :: r =>
      match f x with
      | inl e => inl e
      | inr y =>
          match traverse f r with
          | inl e => inl e
          | inr ys => inr (y :: ys)
          end
      end
  end.

Definition provenance_of_json (prov : Json) : llm_error + Provenance :=
  match json_get prov "chunk_id" (JStr "?") with
  | inl e => inl e
  | inr cid =>
      match json_get prov "page" (JStr "?") with
      | inl e => inl e
      | inr pg =>
          match json_get prov "score" (JFloat zero) with
          | inl e => inl e
          | inr sc =>
              match py_float sc with
              | Raise e => inl (PyExn e)
              | Ok x =>
                  inr {| chunk_id := py_str cid; page := Some (py_str pg); score := x |}
              end
          end
      end
  end.

Definition block_of_json (item : Json) : llm_error + ContentBlock :=
  match item with
  | JStr s => inr {| text := s; provenance := [] |}
  | JObj fields =>
      match dict_get fields "text" (JStr "") with
      | JStr t =>
          match dict_get fields "provenance" JNull with
          | JArr provs =>
              match traverse provenance_of_json provs with
              | inl e => inl e
              | inr ps => inr {| text := t; provenance := ps |}
              end
          | _ => inr {| text := t; provenance := [] |}
          end
      | _ => inl IllTyped
      end
  | _ => inl (PyExn AttributeError)
  end.

(** The local function [_blocks]. *)
Definition _blocks (data : Json) (key : string) : llm_error + list ContentBlock :=
  match json_get data key (JArr []) with
  | inl e => inl e
  | inr items =>
      match iterate items with
      | inl e => inl e
      | inr l => traverse block_of_json l
      end
  end.

Definition q (s : string) : string := dq ++ s ++ dq.

(** [json.dumps(format_hint)]. *)
Definition format_hint : string :=
  "{" ++ q "slides" ++ ": [" ++ q "Slide text" ++ ", " ++ q "Provenance chunk id" ++ "], "
  ++ q "script" ++ ": [" ++ q "Sentence" ++ ", " ++ q "Provenance chunk id" ++ "], "
  ++ q "notes" ++ ": [" ++ q "Note" ++ ", " ++ q "Reference" ++ "], "
  ++ q "tweets" ++ ": [" ++ q "Tweet" ++ "], "
  ++ q "linkedin" ++ ": [" ++ q "Summary" ++ "]}".

Definition llm_prompt (instruction : string) (retrievals : list RetrievalResult)
    (config : GenerationConfig) (audience : AudienceProfile) : string :=
  PromptBuilder.build_prompt instruction retrievals audience (duration config)
                             (Some Safety.describe_safety_rules)
  ++ PromptBuilder.nl ++ "Return valid JSON with keys: slides, script, notes, tweets, linkedin."
  ++ PromptBuilder.nl ++ "Format hint: " ++ format_hint.

Definition llm_outputs_of_json (data : Json) (instruction : string)
    (config : GenerationConfig) (audience : AudienceProfile)
  : llm_error + GenerationOutput :=
  match _blocks data "slides" with
  | inl e => inl e
  | inr sl =>
  match _blocks data "script" with
  | inl e => inl e
  | inr sc =>
  match _blocks data "notes" with
  | inl e => inl e
  | inr no =>
  match _blocks data "tweets" with
  | inl e => inl e
  | inr tw =>
  match _blocks data "linkedin" with
  | inl e => inl e
  | inr li =>
      inr {| slides := sl; script := sc; notes := no; tweets := tw;
             linkedin_summaries := li;
             metadata :=
               (rule_metadata instruction config audience ++ [("generator", "llm")])%list |}
  end end end end end.

(** [LLMGenerator.generate_outputs]. *)
Definition llm_generate_outputs (instruction : string)
    (retrievals : list RetrievalResult) (config : GenerationConfig)
    (audience : AudienceProfile) : llm_error + GenerationOutput :=
  match lm_generate (llm_prompt instruction retrievals config audience) with
  | None => inl (PyExn BackendError)
  | Some raw =>
      match json_loads raw with
      | None => inr (rule_based_generate_outputs instruction retrievals config audience)
      | Some data => llm_outputs_of_json data instruction config audience
      end
  end.

End WithFloats.
End Generator.

(* ------------------------------------------------------------------ *)
(** * pipeline.py *)

Module Pipeline.
Import PyStr PyList Types.

(** [_apply_directive]. *)
Definition replacements : list (string * string) :=
  [ ("electrolyzer", "hydrogen machine"); ("provenance", "source") ].

Definition shorten (text : string) : string :=
  let tokens := split text in
  join " " (firstn (max 5 (length tokens / 2)) tokens) ++ "...".

Definition _apply_directive (text directive : string) : string :=
  let directive_lower := lower directive in
  let text :=
    if contains "less technical" directive_lower
    then fold_left (fun t on => replace (fst on) (snd on) t) replacements text
    else text in
  let text :=
    if contains "more visual" directive_lower
    then text ++ " [Add: photo cue or chart icon]"
    else text in
  if contains "shorter" directive_lower then shorten text else text.

(** The number of words of a text, as [len(text.split())]. *)
Definition word_count (text : string) : nat := length (split text).

(** The text after [k] revisions with the same directive. *)
Definition revised (k : nat) (text directive : string) : string :=
  Nat.iter k (fun t => _apply_directive t directive) text.

Section WithBackends.
Context `{FK : FloatKernel} `{EB : !EmbeddingBackend} `{LM : LanguageModel}
        `{RT : !Generator.PyRuntime} `{DL : DocumentLoader}.

Definition _summarise_output (output : GenerationOutput) : string :=
  "Slides=" ++ str_nat (length (slides output))
  ++ ", script sentences=" ++ str_nat (length (script output))
  ++ ", notes=" ++ str_nat (length (notes output))
  ++ ", tweets=" ++ str_nat (length (tweets output)).

(** The session object.  [objects] is the store of the
    [GenerationOutput] objects created so far; [current_output] and the
    turns of the log hold addresses into it.  The generator is chosen by
    [use_llm]. *)
Record SaralChatbot : Type := {
  use_llm : bool;
  conversation : ConversationLog;
  retriever : option Retriever.Retriever;
  sources_path : option string;
  current_output : option address;
  objects : list GenerationOutput
}.

(** [__post_init__]. *)
Definition new_session (session_id : string) (use_llm : bool) : SaralChatbot :=
  {| use_llm := use_llm;
     conversation := {| session_id := session_id; turns := [] |};
     retriever := None;
     sources_path := None;
     current_output := None;
     objects := [] |}.

Definition _log_turn (bot : SaralChatbot) (role content : string)
    (output : option address) (change : option ChangeRecord) : SaralChatbot :=
  {| use_llm := use_llm bot;
     conversation :=
       {| session_id := session_id (conversation bot);
          turns :=
            (turns (conversation bot)
             ++ [{| role := role; content := content;
                    output_snapshot := output; change_record := change |}])%list |};
     retriever := retriever bot;
     sources_path := sources_path bot;
     current_output := current_output bot;
     objects := objects bot |}.

(** [ingest]: the two assignments at its end are the only writes. *)
Definition ingest (bot : SaralChatbot) (path : string)
    (chunk_config : option Chunker.ChunkConfig) : result unit * SaralChatbot :=
  match load_document path with
  | None => (Raise LoaderError, bot)
  | Some (text, page_map) =>
      let chunk_config :=
        match chunk_config with Some c => c | None => Chunker.default_ChunkConfig end in
      let chunks := Chunker.chunk_text text page_map chunk_config in
      match Retriever.from_chunks chunks with
      | Raise e => (Raise e, bot)
      | Ok r =>
          (Ok tt,
           {| use_llm := use_llm bot;
              conversation := conversation bot;
              retriever := Some r;
              sources_path := Some path;
              current_output := current_output bot;
              objects := objects bot |})
      end
  end.

(** [self.generator.generate_outputs]; an exception of the model-backed
    strategy reaches the caller of [generate]. *)
Definition generator_outputs (bot : SaralChatbot) (request : string)
    (retrievals : list RetrievalResult) (config : GenerationConfig)
    (audience : AudienceProfile) : Generator.llm_error + GenerationOutput :=
  if use_llm bot
  then Generator.llm_generate_outputs request retrievals config audience
  else inr (Generator.rule_based_generate_outputs request retrievals config audience).

Definition set_current (bot : SaralChatbot) (output : GenerationOutput) : SaralChatbot :=
  {| use_llm := use_llm bot;
     conversation := conversation bot;
     retriever := retriever bot;
     sources_path := sources_path bot;
     current_output := Some (length (objects bot));
     objects := (objects bot ++ [output])%list |}.

Definition generate (bot : SaralChatbot) (request : string)
    (audience : AudienceProfile) (config : GenerationConfig) (top_k : Z)
  : (Generator.llm_error + GenerationOutput) * SaralChatbot :=
  match retriever bot with
  | None => (inl (Generator.PyExn RuntimeError), bot)
  | Some r =>
      match Retriever.query r request top_k with
      | Raise e => (inl (Generator.PyExn e), bot)
      | Ok retrievals =>
          match generator_outputs bot request retrievals config audience with
          | inl e => (inl e, bot)
          | inr output =>
              let bot := set_current bot output in
              let bot := _log_turn bot "user" request None None in
              let bot := _log_turn bot "assistant" (_summarise_output output)
                                   (current_output bot) None in
              (inr output, bot)
          end
      end
  end.

(** [section_map]: the three revisable sections of an output. *)
Definition section_map (output : GenerationOutput) (section : string)
  : option (list ContentBlock) :=
  if String.eqb section "slides" then Some (slides output)
  else if String.eqb section "script" then Some (script output)
  else if String.eqb section "notes" then Some (notes output)
  else None.

Definition set_text (b : ContentBlock) (t : string) : ContentBlock :=
  {| text := t; provenance := provenance b |}.

(** [blocks[index].text = after], seen through the output that owns the
    list [blocks]. *)
Definition set_block_text (output : GenerationOutput) (section : string)
    (i : nat) (t : string) : GenerationOutput :=
  let upd (l : list ContentBlock) (name : string) :=
    if String.eqb section name
    then match nth_error l i with
         | Some b => set_nth i (set_text b t) l
         | None => l
         end
    else l in
  {| slides := upd (slides output) "slides";
     script := upd (script output) "script";
     notes := upd (notes output) "notes";
     tweets := tweets output;
     linkedin_summaries := linkedin_summaries output;
     metadata := metadata output |}.

Definition store_output (bot : SaralChatbot) (a : address) (output : GenerationOutput)
  : SaralChatbot :=
  {| use_llm := use_llm bot;
     conversation := conversation bot;
     retriever := retriever bot;
     sources_path := sources_path bot;
     current_output := current_output bot;
     objects := set_nth a output (objects bot) |}.

(** The object [self.current_output] refers to. *)
Definition deref (bot : SaralChatbot) : option (address * GenerationOutput) :=
  match current_output bot with
  | None => None
  | Some a =>
      match nth_error (objects bot) a with
      | Some o => Some (a, o)
      | None => None
      end
  end.

(** Every address held by the session points into the object store. *)
Definition wf_session (bot : SaralChatbot) : Prop :=
  match current_output bot with
  | None => True
  | Some a => a < length (objects bot)
  end.

(** [revise_section]; [now] is the reading of [datetime.utcnow()]. *)
Definition revise_section (bot : SaralChatbot) (section : string) (index : Z)
    (directive : string) (now : Z) : result ChangeRecord * SaralChatbot :=
  match deref bot with
  | None => (Raise RuntimeError, bot)
  | Some (a, output) =>
      match section_map output section with
      | None => (Raise ValueError, bot)
      | Some blocks =>
          if ((0 <=? index)%Z && (index <? Z.of_nat (length blocks))%Z)%bool then
            let i := Z.to_nat index in
            let before := text (nth i blocks Generator.empty_block) in
            let after := _apply_directive before directive in
            let bot := store_output bot a (set_block_text output section i after) in
            let change :=
              {| timestamp := now;
                 user_request := directive;
                 target_section := section ++ "[" ++ str_Z index ++ "]";
                 before := before;
                 after := after;
                 rationale :=
                   "Applied directive '" ++ directive ++ "' via rule-based mutation." |} in
            let bot := _log_turn bot "user" directive None None in
            let bot := _log_turn bot "assistant"
                                 ("Updated " ++ section ++ "[" ++ str_Z index ++ "]")
                                 None (Some change) in
            (Ok change, bot)
          else (Raise IndexError, bot)
      end
  end.

(** The blocks of a named section ([[]] for an unknown name). *)
Definition section_blocks (output : GenerationOutput) (section : string)
  : list ContentBlock :=
  match section_map output section with Some l => l | None => [] end.

(** The three conditions under which a revision is refused. *)
Definition revision_refused (bot : SaralChatbot) (section : string) (index : Z) : Prop :=
  current_output bot = None
  \/ ~ In section ["slides"; "script"; "notes"]
  \/ exists a output,
       current_output bot = Some a /\ nth_error (objects bot) a = Some output
       /\ ~ (0 <= index < Z.of_nat (length (section_blocks output section)))%Z.

(** The two turns a revision appends to the log. *)
Definition revision_turns (section : string) (index : Z) (directive : string)
    (change : ChangeRecord) : list ConversationTurn :=
  [ {| role := "user"; content := directive;
       output_snapshot := None; change_record := None |};
    {| role := "assistant";
       content := "Updated " ++ section ++ "[" ++ str_Z index ++ "]";
       output_snapshot := None; change_record := Some change |} ].

End WithBackends.
End Pipeline.

(* ------------------------------------------------------------------ *)
(** * ui/chat_driver.py *)

Module ChatDriver.
Import PyStr.

Definition is_digit (c : ascii) : bool :=
  let n := nat_of_ascii c in (48 <=? n) && (n <=? 57).

Definition digit_value (c : ascii) : nat := nat_of_ascii c - 48.

(** The digits of an integer literal as [int] reads them: decimal digits,
    with single underscores allowed between two digits.  [need_digit] says
    that a digit must come next (at the start and after an underscore). *)
Fixpoint int_digits (acc : nat) (need_digit : bool) (s : string) : option nat :=
  match s with
  | EmptyString => if need_digit then None else Some acc
  | String c r =>
      if is_digit c then int_digits (10 * acc + digit_value c) false r
      else if Ascii.eqb c "_"%char
           then (if need_digit then None else int_digits acc true r)
           else None
  end.

(** [int(s)] on ASCII text: surrounding whitespace is dropped, one sign is
    allowed; [None] stands for [ValueError]. *)
Definition py_int (s : string) : option Z :=
  match strip s with
  | EmptyString => None
  | String c r =>
      if Ascii.eqb c "+"%char then option_map Z.of_nat (int_digits 0 true r)
      else if Ascii.eqb c "-"%char
           then option_map (fun n => (- Z.of_nat n)%Z) (int_digits 0 true r)
           else option_map Z.of_nat (int_digits 0 true (String c r))
  end.

(** [_parse_revision]: the section, the index (the number typed, minus
    one) and the directive of a command [revise <section> <index>
    <directive>]. *)
Definition _parse_revision (text : string) : option (string * Z * string) :=
  match split (strip text) with
  | p0 :: p1 :: p2 :: p3 :: rest =>
      if String.eqb (lower p0) "revise" then
        match py_int p2 with
        | Some n => Some (lower p1, (n - 1)%Z, join " " (p3 :: rest))
        | None => None
        end
      else None
  | _ => None
  end.

End ChatDriver.

(* ------------------------------------------------------------------ *)
(** * evaluation/metrics.py *)

Module Metrics.
Import Types.

(** The quotient [cited / total] of two integers as a float. *)
Class FloatDivision `{FK : FloatKernel} : Type := {
  true_div : nat -> nat -> Score
}.

Section WithFloats.
Context `{FK : FloatKernel} `{FD : !FloatDivision}.

(** [block.provenance] as a truth value. *)
Definition is_cited (b : ContentBlock) : bool :=
  match provenance b with [] => false | _ => true end.

Definition cited_count (blocks : list ContentBlock) : nat :=
  length (filter is_cited blocks).

Definition provenance_coverage (blocks : list ContentBlock) : Score :=
  match blocks with
  | [] => zero
  | _ => true_div (cited_count blocks) (length blocks)
  end.

Definition citation_coverage (output : GenerationOutput) : Score :=
  provenance_coverage (slides output ++ script output ++ notes output)%list.

End WithFloats.
End Metrics.

(* ------------------------------------------------------------------ *)
(** * Predicates of the statements below *)

Module Vocabulary.
Import PyStr PyList Types.

Section WithFloats.
Context `{FK : FloatKernel}.
Import Chunker.

(** The chunks emitted inside the loop have reached [chunk_size]. *)
Definition full_size (config : ChunkConfig) (c : RetrievedChunk) : Prop :=
  (chunk_size config <= Z.of_nat (String.length (rc_text c)))%Z.

(** With no overlap the chunks cut the sentence sequence into consecutive
    non-empty groups, each chunk being one group joined by single
    spaces. *)
Definition partitioned (sentences window : list string) (cs : list RetrievedChunk)
  : Prop :=
  exists groups,
    (concat groups ++ window)%list = sentences
    /\ Forall (fun g => g <> []) groups
    /\ map rc_text cs = map (join " ") groups.

(** The page of a chunk: [?] without a page map, else the number of one of
    its pages. *)
Definition page_from (page_map : list (Z * string)) (p : string) : Prop :=
  match page_map with
  | [] => p = "?"
  | _ => exists k, In k (map fst page_map) /\ p = str_Z k
  end.

(** A chunk as the chunker leaves it: paged, not yet embedded, without
    metadata. *)
Definition fresh_chunk (page_map : list (Z * string)) (c : RetrievedChunk) : Prop :=
  rc_embedding c = None /\ rc_metadata c = []
  /\ exists p, rc_page c = Some p /\ page_from page_map p.

End WithFloats.

Section Blocks.
Context `{FK : FloatKernel}.
Import Generator.

(** A block made of a bare string. *)
Definition bare (t : string) : ContentBlock := {| text := t; provenance := [] |}.

(** The block list after [blocks[i].text = t]. *)
Definition with_text (i : nat) (t : string) (l : list ContentBlock)
  : list ContentBlock :=
  match nth_error l i with
  | Some b => set_nth i (Pipeline.set_text b t) l
  | None => l
  end.

End Blocks.

Section Sessions.
Context `{FK : FloatKernel}.
Import Pipeline.

(** The session [bot'] is [bot] with [n] more turns in its log: the turns
    already there, the session id and the choice of generator are kept. *)
Definition extends (bot bot' : SaralChatbot) (n : nat) : Prop :=
  exists suffix,
    length suffix = n
    /\ turns (conversation bot') = (turns (conversation bot) ++ suffix)%list
    /\ session_id (conversation bot') = session_id (conversation bot)
    /\ use_llm bot' = use_llm bot.

End Sessions.
End Vocabulary.

(* ------------------------------------------------------------------ *)
(** * Test fixtures

    A float kernel with integer scores (an embedding is an integer vector,
    scored by its dot product with the query), backends that answer from
    fixed tables, and a small document.  They serve the concrete runs
    below. *)

Module Fixtures.
Import PyStr Types.

Fixpoint dot (a b : list Z) : Z :=
  match a, b with
  | x :: a', y :: b' => (x * y + dot a' b')%Z
  | _, _ => 0%Z
  end.

Definition int_kernel : FloatKernel :=
  {| Score := Z; Embedding := list Z; score_leb := Z.leb; cosine := dot;
     tolist := fun e => e; format_3f := str_Z; zero := 0%Z |}.

(** One coordinate per text: its length. *)
Definition length_backend : @EmbeddingBackend int_kernel :=
  @Build_EmbeddingBackend int_kernel
    (fun texts => Some (map (fun t => [Z.of_nat (String.length t)]) texts)).

(** A model that never answers with JSON. *)
Definition prose_model : LanguageModel :=
  {| lm_generate := fun _ => Some "Sorry, here are some slides." |}.

(** A decoder that knows the empty object only. *)
Definition tiny_runtime : @Generator.PyRuntime int_kernel :=
  @Generator.Build_PyRuntime int_kernel
    (fun raw => if String.eqb raw "{}" then Some (Generator.JObj []) else None)
    (fun j => match j with Generator.JStr t => t | _ => "?" end)
    (fun j => match j with
              | Generator.JFloat x => Ok x
              | Generator.JInt z => Ok z
              | _ => Raise TypeError
              end).

Definition ten_text : string :=
  "One. Two! Three? Four. Five. Six. Seven. Eight. Nine. Ten. Eleven.".

Definition update_text : string := "A later draft. It replaces the paper.".

Definition paper_loader : DocumentLoader :=
  {| load_document :=
       fun path =>
         if String.eqb path "paper.txt" then Some (ten_text, [(1%Z, ten_text)])
         else if String.eqb path "update.txt" then Some (update_text, [(1%Z, update_text)])
         else None |}.

Definition ten_chunk : @RetrievedChunk int_kernel :=
  @Build_RetrievedChunk int_kernel "chunk_0" ten_text (Some "1") None [].

Definition ten_match : @RetrievalResult int_kernel :=
  @Build_RetrievalResult int_kernel ten_chunk 1%Z.

Definition plain_audience : AudienceProfile :=
  {| label := "Policymakers"; style := PLAIN; expertise_notes := "";
     tone_directives := ["accessible"; "cite sources"] |}.

(** An index of three chunks; the first and the last score the same
    against the query [[1]]. *)
Definition chunk_of (n : nat) : @RetrievedChunk int_kernel :=
  @Build_RetrievedChunk int_kernel (Chunker.chunk_name n) "text" (Some "1") None [].

Definition three_store : @VectorStore.VectorStore int_kernel :=
  VectorStore.add
    (VectorStore.add (VectorStore.add VectorStore.empty (chunk_of 0) [2%Z])
                     (chunk_of 1) [5%Z])
    (chunk_of 2) [2%Z].

Definition hit (n : nat) (s : Z) : @RetrievalResult int_kernel :=
  @Build_RetrievalResult int_kernel (chunk_of n) s.

Definition config_of (d : Duration) : GenerationConfig :=
  {| duration := d; cfg_style := PLAIN; include_tweets := true;
     include_linkedin := true; include_speaker_notes := true;
     safety_checks := true |}.

(** A session of the rule-based generator: ingest the paper, generate,
    then ingest the later draft. *)
Definition SaralChatbot : Type := @Pipeline.SaralChatbot int_kernel.

Definition ingest (bot : SaralChatbot) (path : string) : SaralChatbot :=
  snd (@Pipeline.ingest int_kernel length_backend paper_loader bot path None).

Definition generate (bot : SaralChatbot) (request : string) (d : Duration)
  : SaralChatbot :=
  snd (@Pipeline.generate int_kernel length_backend prose_model tiny_runtime
         bot request plain_audience (config_of d) 5%Z).

Definition revise (bot : SaralChatbot) (section : string) (index : Z)
    (directive : string) : result ChangeRecord * SaralChatbot :=
  @Pipeline.revise_section int_kernel bot section index directive 0%Z.

Definition fresh : SaralChatbot :=
  @Pipeline.new_session int_kernel "session-1" false.
Definition ingested : SaralChatbot := ingest fresh "paper.txt".
Definition generated : SaralChatbot := generate ingested "summarize" SHORT_30S.
Definition reingested : SaralChatbot := ingest generated "update.txt".

End Fixtures.

(** More fixtures: decoders with a fixed answer, a configuration without
    overlap, and the session after one revision. *)
Module MoreFixtures.
Import PyStr Types Fixtures.

(** A decoder that reads every answer as the empty array. *)
Definition array_runtime : @Generator.PyRuntime int_kernel :=
  @Generator.Build_PyRuntime int_kernel
    (fun _ => Some (Generator.JArr []))
    (fun j => match j with Generator.JStr t => t | _ => "?" end)
    (fun j => match j with Generator.JFloat x => Ok x | _ => Raise TypeError end).

Definition slide_fields : list (string * @Generator.Json int_kernel) :=
  [ ("slides", Generator.JArr [Generator.JStr "Only slide"]) ].

(** A decoder that reads every answer as an object with one slide. *)
Definition slide_runtime : @Generator.PyRuntime int_kernel :=
  @Generator.Build_PyRuntime int_kernel
    (fun _ => Some (Generator.JObj slide_fields))
    (fun j => match j with Generator.JStr t => t | _ => "?" end)
    (fun j => match j with Generator.JFloat x => Ok x | _ => Raise TypeError end).

Definition slide_texts (key : string) : list string :=
  if String.eqb key "slides" then ["Only slide"] else [].

Definition no_overlap : Chunker.ChunkConfig :=
  {| Chunker.chunk_size := 12; Chunker.overlap := 0 |}.

Definition four_sentences : string := "Aaa bbb. Ccc ddd. Eee fff. Ggg.".

Definition first_output : @GenerationOutput int_kernel :=
  nth 0 (Pipeline.objects generated)
      (Generator.rule_based_generate_outputs "" [] (config_of SHORT_30S) plain_audience).

Definition no_change : ChangeRecord :=
  {| timestamp := 0; user_request := ""; target_section := "";
     before := ""; after := ""; rationale := "" |}.

Definition shorter_change : ChangeRecord :=
  match fst (revise generated "slides" 0 "make it shorter") with
  | Ok c => c
  | Raise _ => no_change
  end.

Definition revised_session : SaralChatbot :=
  snd (revise generated "slides" 0 "make it shorter").

Definition two_chunks : list (@RetrievedChunk int_kernel) := [chunk_of 0; chunk_of 1].

End MoreFixtures.

(* ------------------------------------------------------------------ *)
(** * Properties of the text primitives *)

Section TextFacts.
Import PyStr.

Lemma split_unfold (c : ascii) (s : string) :
  split (String c s)
  = if is_space c then split s
    else match s with
         | EmptyString => [String c EmptyString]
         | String c' _ =>
             if is_space c' then String c EmptyString :: split s
             else push c (split s)
         end.
Proof. destruct s; reflexivity. Qed.

Lemma token_cons (c : ascii) (t : string) :
  token (String c t) <-> is_space c = false /\ no_space t = true.
Proof.
  unfold token. cbn [no_space]. rewrite andb_true_iff, negb_true_iff.
  split; [ intros [_ H]; exact H | intros H; split; [ discriminate | exact H ] ].
Qed.

(** [split] reads a word that is followed by the end of the text or by
    whitespace as one piece. *)
Lemma split_token_app (t rest : string) :
  token t ->
  (rest = EmptyString \/ exists c r, rest = String c r /\ is_space c = true) ->
  split (t ++ rest) = t :: split rest.
Proof.
  intros Ht Hrest. induction t as [| c t IH].
  - destruct Ht as [Ht _]. contradiction.
  - apply token_cons in Ht. destruct Ht as [Hc Ht].
    cbn [append]. rewrite split_unfold, Hc.
    destruct t as [| c2 t].
    + cbn [append]. destruct Hrest as [-> | (c' & r & -> & Hc')].
      * reflexivity.
      * rewrite Hc'. reflexivity.
    + assert (Ht2 : token (String c2 t)) by (unfold token; split; [ discriminate | exact Ht ]).
      specialize (IH Ht2). cbn [append] in IH |- *.
      apply token_cons in Ht2. destruct Ht2 as [Hc2 _]. rewrite Hc2, IH. reflexivity.
Qed.

Lemma split_tokens (s : string) : Forall token (split s).
Proof.
  induction s as [| c s IH]; [ constructor | ].
  rewrite split_unfold. destruct (is_space c) eqn:Hc; [ exact IH | ].
  assert (Hone : token (String c EmptyString))
    by (apply token_cons; split; [ exact Hc | reflexivity ]).
  destruct s as [| c' s']; [ constructor; [ exact Hone | constructor ] | ].
  destruct (is_space c'); [ constructor; assumption | ].
  destruct (split (String c' s')) as [| w ws]; cbn [push].
  - constructor; [ exact Hone | constructor ].
  - inversion IH as [| ? ? Hw Hws]; subst. constructor; [ | exact Hws ].
    apply token_cons. split; [ exact Hc | apply Hw ].
Qed.

Lemma join_cons (sep x : string) (l : list string) :
  l <> [] -> join sep (x :: l) = x ++ sep ++ join sep l.
Proof. destruct l; [ contradiction | reflexivity ]. Qed.

Lemma append_assoc (a b c : string) : (a ++ b) ++ c = a ++ (b ++ c).
Proof. induction a as [| x a IH]; cbn [append]; [ reflexivity | rewrite IH; reflexivity ]. Qed.

Lemma no_space_app (a b : string) :
  no_space a = true -> no_space b = true -> no_space (a ++ b) = true.
Proof.
  intros Ha Hb. induction a as [| c a IH]; cbn [append no_space] in *; [ exact Hb | ].
  apply andb_true_iff in Ha. destruct Ha as [Hc Ha]. rewrite Hc, (IH Ha). reflexivity.
Qed.

Lemma token_app (t x : string) : token t -> no_space x = true -> token (t ++ x).
Proof.
  intros [Hne Hns] Hx. split; [ | apply no_space_app; assumption ].
  destruct t; [ contradiction | discriminate ].
Qed.

(** The words of a text joined by a single space and followed by a
    whitespace-free suffix are as many words as before. *)
Lemma split_join_suffix (l : list string) (x : string) :
  Forall token l -> l <> [] -> no_space x = true ->
  length (split (join " " l ++ x)) = length l.
Proof.
  intros Hl. induction Hl as [| t l Ht Hl IH]; intros Hne Hx; [ contradiction | ].
  destruct l as [| t2 l].
  - cbn [join]. replace (t ++ x) with ((t ++ x) ++ EmptyString).
    + rewrite split_token_app; [ reflexivity | apply token_app; assumption | left; reflexivity ].
    + clear. induction (t ++ x) as [| c u IHu]; cbn [append]; [ | rewrite IHu ]; reflexivity.
  - rewrite join_cons by discriminate. rewrite append_assoc.
    rewrite split_token_app.
    + cbn [append length]. rewrite (split_unfold " "%char). cbn [is_space].
      change (is_space " "%char) with true. cbn iota.
      rewrite IH; [ reflexivity | discriminate | exact Hx ].
    + exact Ht.
    + right. exists " "%char. eexists. split; [ reflexivity | reflexivity ].
Qed.

End TextFacts.

(* ------------------------------------------------------------------ *)
(** * Properties of the safety filter *)

Section SafetyFacts.
Import PyStr Safety.

(** C8.  The blocklist test is made on the lower-cased sentence, but the
    replacement is made on the sentence as written: an upper-case
    occurrence of a blocked term passes the test and is then left in place,
    while the lower-case one is replaced and the jargon map matches in any
    case. *)
Lemma enforce_safety_case_sensitive_replace :
  contains "hate" (lower "We HATE delays") = true
  /\ enforce_safety "We HATE delays" = "We HATE delays"
  /\ enforce_safety "We hate delays" = "We [removed] delays"
  /\ enforce_safety "Kill it, then kill it" = "Kill it, then [removed] it"
  /\ enforce_safety "ANTHROPOGENIC change"
     = "human-caused (formerly " ++ dq ++ "anthropogenic" ++ dq ++ ") change".
Proof. repeat split; vm_compute; reflexivity. Qed.

End SafetyFacts.

(* ------------------------------------------------------------------ *)
(** * Properties of the rule-based and of the model-backed strategy *)

Section GeneratorFacts.
Import PyStr Types Generator.
Context `{FK : FloatKernel}.

Lemma sentence_provenance (retrievals : list RetrievalResult) (b : ContentBlock) :
  In b (collect_sentences retrievals) ->
  exists r, In r retrievals /\
            provenance b = [ {| chunk_id := rc_chunk_id (chunk r);
                                page := rc_page (chunk r);
                                score := rr_score r |} ].
Proof.
  unfold collect_sentences. rewrite in_flat_map.
  intros (r & Hr & Hb). exists r. split; [ assumption | ].
  unfold sentences_of in Hb. rewrite in_map_iff in Hb.
  destruct Hb as (sentence & <- & _). reflexivity.
Qed.

Lemma sentence_cited (retrievals : list RetrievalResult) (b : ContentBlock) :
  In b (collect_sentences retrievals) ->
  provenance b <> [] /\ cites_only retrievals b.
Proof.
  intros Hb. destruct (sentence_provenance _ _ Hb) as (r & Hr & Hp).
  split.
  - rewrite Hp. discriminate.
  - intros p Hin. rewrite Hp in Hin. destruct Hin as [<- | []].
    simpl. apply in_map_iff. exists r. split; [ reflexivity | assumption ].
Qed.

Lemma sentence_at_In (sentences : list ContentBlock) (idx : nat) :
  idx < length sentences -> In (sentence_at sentences idx) sentences.
Proof. intros H. unfold sentence_at. apply nth_In. exact H. Qed.

Lemma loop_index (budget n idx : nat) :
  In idx (seq 0 (min budget n)) -> idx < n.
Proof. rewrite in_seq. lia. Qed.

Lemma firstn_In {A : Type} (n : nat) (l : list A) (x : A) :
  In x (firstn n l) -> In x l.
Proof.
  revert l. induction n as [| n IH]; intros [| y l] H; simpl in *; try contradiction.
  destruct H as [-> | H]; [ left; reflexivity | right; apply IH; exact H ].
Qed.

(** The blocks of the four per-sentence sections carry the provenance of
    one sentence. *)
Lemma per_sentence_block (instruction : string) (retrievals : list RetrievalResult)
    (config : GenerationConfig) (audience : AudienceProfile) (b : ContentBlock) :
  let out := rule_based_generate_outputs instruction retrievals config audience in
  In b (slides out ++ script out ++ notes out ++ tweets out)%list ->
  exists s, In s (collect_sentences retrievals) /\ provenance b = provenance s.
Proof.
  cbv zeta. unfold rule_based_generate_outputs. cbn [slides script notes tweets].
  rewrite !in_app_iff. intros [H | [H | [H | H]]].
  - rewrite in_map_iff in H. destruct H as (idx & <- & Hidx).
    exists (sentence_at (collect_sentences retrievals) idx).
    split; [ apply sentence_at_In; eapply loop_index; exact Hidx | reflexivity ].
  - exists b. split; [ eapply firstn_In; exact H | reflexivity ].
  - destruct (include_speaker_notes config); [ | contradiction ].
    rewrite in_map_iff in H. destruct H as (idx & <- & Hidx).
    exists (sentence_at (collect_sentences retrievals) idx).
    split; [ apply sentence_at_In; eapply loop_index; exact Hidx | reflexivity ].
  - destruct (include_tweets config); [ | contradiction ].
    rewrite in_map_iff in H. destruct H as (s & <- & Hs).
    exists s. split; [ eapply firstn_In; exact Hs | reflexivity ].
Qed.

(** C2, amended.  Whatever the matches and the configuration: every block
    of the slides, script, notes and tweets has a non-empty provenance; the
    LinkedIn block has one as soon as the matches yield a sentence; and
    every chunk id cited anywhere in the output is the id of the chunk of
    one of the matches. *)
Theorem rule_based_provenance (instruction : string)
    (retrievals : list RetrievalResult) (config : GenerationConfig)
    (audience : AudienceProfile) :
  let out := rule_based_generate_outputs instruction retrievals config audience in
  (forall b, In b (slides out ++ script out ++ notes out ++ tweets out)%list ->
             provenance b <> [])
  /\ (collect_sentences retrievals <> [] ->
      forall b, In b (linkedin_summaries out) -> provenance b <> [])
  /\ (forall b, In b (all_blocks out) -> cites_only retrievals b).
Proof.
  cbv zeta. split; [ | split ].
  - intros b Hb. destruct (per_sentence_block _ _ _ _ _ Hb) as (s & Hs & ->).
    apply (sentence_cited _ _ Hs).
  - intros Hne b. unfold rule_based_generate_outputs. cbn [linkedin_summaries].
    destruct (include_linkedin config); [ | contradiction ].
    intros [<- | []]. unfold linkedin_of. cbn [provenance].
    destruct (collect_sentences retrievals) as [| s rest] eqn:E; [ congruence | ].
    assert (Hs : In s (collect_sentences retrievals)) by (rewrite E; left; reflexivity).
    destruct (sentence_provenance _ _ Hs) as (r & _ & Hp).
    cbn [firstn flat_map]. rewrite Hp. discriminate.
  - intros b Hb. unfold all_blocks in Hb.
    rewrite !app_assoc, in_app_iff, <- !app_assoc in Hb.
    destruct Hb as [Hb | Hb].
    + destruct (per_sentence_block _ _ _ _ _ Hb) as (s & Hs & Hp).
      intros p Hin. rewrite Hp in Hin. apply (sentence_cited _ _ Hs). exact Hin.
    + unfold rule_based_generate_outputs in Hb. cbn [linkedin_summaries] in Hb.
      destruct (include_linkedin config); [ | contradiction ].
      destruct Hb as [<- | []]. intros p Hin.
      unfold linkedin_of in Hin. cbn [provenance] in Hin.
      rewrite in_flat_map in Hin. destruct Hin as (s & Hs & Hin).
      apply firstn_In in Hs. apply (sentence_cited _ _ Hs). exact Hin.
Qed.

(** C5.  With at least ten filtered sentences, a 30-second request gets
    exactly 3 slides and at most 6 script blocks and a 5-minute request
    exactly 7 slides and at most 30 script blocks; the budgets are those of
    the two tables. *)
Theorem rule_based_budgets (instruction : string)
    (retrievals : list RetrievalResult) (config : GenerationConfig)
    (audience : AudienceProfile) :
  10 <= length (collect_sentences retrievals) ->
  let out := rule_based_generate_outputs instruction retrievals config audience in
  (duration config = SHORT_30S -> length (slides out) = 3 /\ length (script out) <= 6)
  /\ (duration config = LONG_5MIN -> length (slides out) = 7 /\ length (script out) <= 30)
  /\ map SLIDE_BUDGET [SHORT_30S; MEDIUM_90S; LONG_5MIN] = [3; 5; 7]
  /\ map SCRIPT_SENTENCES [SHORT_30S; MEDIUM_90S; LONG_5MIN] = [6; 14; 30].
Proof.
  intros Hten. cbv zeta. unfold rule_based_generate_outputs. cbn [slides script].
  rewrite length_map, length_seq, length_firstn.
  split; [ | split; [ | split; reflexivity ] ];
    intros ->; cbn [SLIDE_BUDGET SCRIPT_SENTENCES]; lia.
Qed.

Context `{LM : LanguageModel} `{RT : !PyRuntime}.

(** C4.  When the text the model returns does not decode, the model-backed
    strategy returns the very output of the rule-based strategy on the same
    instruction, matches, configuration and audience. *)
Theorem llm_fallback_is_rule_based (instruction : string)
    (retrievals : list RetrievalResult) (config : GenerationConfig)
    (audience : AudienceProfile) (raw : string) :
  lm_generate (llm_prompt instruction retrievals config audience) = Some raw ->
  json_loads raw = None ->
  llm_generate_outputs instruction retrievals config audience
  = inr (rule_based_generate_outputs instruction retrievals config audience).
Proof.
  intros Hraw Hbad. unfold llm_generate_outputs. rewrite Hraw, Hbad. reflexivity.
Qed.

End GeneratorFacts.

Section GeneratorRuns.
Import Types Generator Fixtures.

(** C2, as stated, fails on the empty list of matches: with every flag
    enabled the output holds one LinkedIn block, its text and its
    provenance both empty. *)
Lemma rule_based_empty_matches_uncited :
  all_blocks (@rule_based_generate_outputs int_kernel "summarize" []
                (config_of SHORT_30S) plain_audience)
  = [ @Build_ContentBlock int_kernel "" [] ].
Proof. vm_compute. reflexivity. Qed.

Lemma rule_based_budgets_witness :
  10 <= length (@collect_sentences int_kernel [ten_match])
  /\ length (slides (@rule_based_generate_outputs int_kernel "summarize" [ten_match]
                       (config_of LONG_5MIN) plain_audience)) = 7
  /\ length (script (@rule_based_generate_outputs int_kernel "summarize" [ten_match]
                       (config_of LONG_5MIN) plain_audience)) <= 30.
Proof.
  assert (H : 10 <= length (@collect_sentences int_kernel [ten_match]))
    by (vm_compute; lia).
  split; [ exact H | ].
  apply (@rule_based_budgets int_kernel "summarize" [ten_match]
           (config_of LONG_5MIN) plain_audience H).
  reflexivity.
Defined.

Lemma llm_fallback_witness :
  @llm_generate_outputs int_kernel prose_model tiny_runtime "summarize" [ten_match]
    (config_of SHORT_30S) plain_audience
  = inr (@rule_based_generate_outputs int_kernel "summarize" [ten_match]
           (config_of SHORT_30S) plain_audience).
Proof.
  apply (@llm_fallback_is_rule_based int_kernel prose_model tiny_runtime
           "summarize" [ten_match] (config_of SHORT_30S) plain_audience
           "Sorry, here are some slides.").
  - reflexivity.
  - reflexivity.
Defined.

End GeneratorRuns.

(* ------------------------------------------------------------------ *)
(** * Properties of the session *)

Section PipelineFacts.
Import PyStr PyList Types Pipeline.
Context `{FK : FloatKernel} `{EB : !EmbeddingBackend} `{DL : DocumentLoader}.

Lemma section_map_known (output : GenerationOutput) (section : string) :
  section_map output section <> None <-> In section ["slides"; "script"; "notes"].
Proof.
  unfold section_map.
  destruct (String.eqb_spec section "slides") as [-> | H1].
  { split; [ intros _; simpl; auto | discriminate ]. }
  destruct (String.eqb_spec section "script") as [-> | H2].
  { split; [ intros _; simpl; auto | discriminate ]. }
  destruct (String.eqb_spec section "notes") as [-> | H3].
  { split; [ intros _; simpl; auto | discriminate ]. }
  split; [ congruence | ].
  intros [E | [E | [E | []]]]; symmetry in E; contradiction.
Qed.

(** C7.  In a session whose addresses are valid, [revise_section] raises
    exactly when there is no current output, or the section is not one of
    slides, script and notes, or the index is outside the section; and a
    call that raises leaves the whole session (outputs and log) as it
    was. *)
Theorem revise_section_refusal (bot : SaralChatbot) (section : string) (index : Z)
    (directive : string) (now : Z) :
  wf_session bot ->
  (is_raise (fst (revise_section bot section index directive now)) = true
   <-> revision_refused bot section index)
  /\ (is_raise (fst (revise_section bot section index directive now)) = true ->
      snd (revise_section bot section index directive now) = bot).
Proof.
  intros Hwf. unfold revise_section, deref, revision_refused, wf_session in *.
  destruct (current_output bot) as [a |] eqn:Hcur.
  2:{ cbn. split; [ split; auto | reflexivity ]. }
  destruct (nth_error (objects bot) a) as [output |] eqn:Hobj.
  2:{ apply nth_error_None in Hobj. lia. }
  destruct (section_map output section) as [blocks |] eqn:Hsec.
  2:{ cbn. split; [ split; [ intros _ | reflexivity ] | reflexivity ].
      right; left. intros Hk. apply (section_map_known output) in Hk. congruence. }
  assert (Hblocks : section_blocks output section = blocks)
    by (unfold section_blocks; rewrite Hsec; reflexivity).
  destruct ((0 <=? index)%Z && (index <? Z.of_nat (length blocks))%Z)%bool eqn:Hin.
  - apply andb_true_iff in Hin. destruct Hin as [H0 H1].
    apply Z.leb_le in H0. apply Z.ltb_lt in H1.
    cbn. split; [ split; [ discriminate | ] | discriminate ].
    intros [Hnone | [Hsect | (a' & output' & Ha & Ho & Hout)]].
    + discriminate.
    + exfalso. apply Hsect. apply (section_map_known output). congruence.
    + exfalso. injection Ha as <-. rewrite Hobj in Ho. injection Ho as <-.
      rewrite Hblocks in Hout. lia.
  - cbn. split; [ split; [ intros _ | reflexivity ] | reflexivity ].
    right; right. exists a, output. repeat split; try assumption.
    rewrite Hblocks. intros [H0 H1].
    apply Z.leb_le in H0. apply Z.ltb_lt in H1. rewrite H0, H1 in Hin. discriminate.
Qed.

Lemma set_nth_same {A : Type} (l : list A) (i : nat) (x : A) :
  nth_error l i = Some x -> set_nth i x l = l.
Proof.
  revert i. induction l as [| y l IH]; intros [| i] H; simpl in *; try discriminate.
  - injection H as ->. reflexivity.
  - rewrite (IH _ H). reflexivity.
Qed.

Lemma set_text_same (b : ContentBlock) : set_text b (text b) = b.
Proof. destruct b. reflexivity. Qed.

Lemma set_block_text_same (output : GenerationOutput) (section : string)
    (blocks : list ContentBlock) (i : nat) :
  section_map output section = Some blocks ->
  set_block_text output section i (text (nth i blocks Generator.empty_block)) = output.
Proof.
  intros Hsec.
  assert (Hupd : forall l : list ContentBlock,
             l = blocks ->
             match nth_error l i with
             | Some b => set_nth i (set_text b (text (nth i blocks Generator.empty_block))) l
             | None => l
             end = l).
  { intros l ->. destruct (nth_error blocks i) as [b |] eqn:Hb; [ | reflexivity ].
    apply set_nth_same. rewrite (nth_error_nth _ _ _ Hb), set_text_same. exact Hb. }
  unfold set_block_text, section_map in *. destruct output as [sl sc no tw li me].
  cbn [slides script notes tweets linkedin_summaries metadata] in *.
  destruct (String.eqb_spec section "slides") as [-> | H1].
  { injection Hsec as Hsec. cbn. rewrite (Hupd sl Hsec). reflexivity. }
  destruct (String.eqb_spec section "script") as [-> | H2].
  { injection Hsec as Hsec. cbn. rewrite (Hupd sc Hsec). reflexivity. }
  destruct (String.eqb_spec section "notes") as [-> | H3].
  { injection Hsec as Hsec. cbn. rewrite (Hupd no Hsec). reflexivity. }
  discriminate.
Qed.

Lemma store_output_same (bot : SaralChatbot) (a : address) (output : GenerationOutput) :
  nth_error (objects bot) a = Some output -> store_output bot a output = bot.
Proof.
  intros H. unfold store_output. rewrite (set_nth_same _ _ _ H).
  destruct bot. reflexivity.
Qed.

Lemma _apply_directive_no_pattern (t directive : string) :
  contains "less technical" (lower directive) = false ->
  contains "more visual" (lower directive) = false ->
  contains "shorter" (lower directive) = false ->
  _apply_directive t directive = t.
Proof. intros H1 H2 H3. unfold _apply_directive. rewrite H1, H2, H3. reflexivity. Qed.

(** C10.  With a current output, a revisable section and an index inside
    it, a directive that contains none of the three patterns returns a
    change record whose [after] is its [before] (the text of the target
    block), leaves every stored output as it was, and appends exactly the
    user turn and the assistant turn that carries the record. *)
Theorem revise_section_unmatched_directive (bot : SaralChatbot) (section : string)
    (index : Z) (directive : string) (now : Z)
    (a : address) (output : GenerationOutput) (blocks : list ContentBlock) :
  deref bot = Some (a, output) ->
  section_map output section = Some blocks ->
  (0 <= index < Z.of_nat (length blocks))%Z ->
  contains "less technical" (lower directive) = false ->
  contains "more visual" (lower directive) = false ->
  contains "shorter" (lower directive) = false ->
  exists change bot',
    revise_section bot section index directive now = (Ok change, bot')
    /\ before change = text (nth (Z.to_nat index) blocks Generator.empty_block)
    /\ after change = before change
    /\ objects bot' = objects bot
    /\ current_output bot' = current_output bot
    /\ turns (conversation bot')
       = (turns (conversation bot) ++ revision_turns section index directive change)%list.
Proof.
  intros Hderef Hsec [H0 H1] Hlt Hmv Hsh.
  unfold revise_section. rewrite Hderef, Hsec.
  apply Z.leb_le in H0. apply Z.ltb_lt in H1. rewrite H0, H1. cbn [andb].
  rewrite (_apply_directive_no_pattern _ _ Hlt Hmv Hsh).
  rewrite (set_block_text_same _ _ _ _ Hsec).
  assert (Hobj : nth_error (objects bot) a = Some output).
  { unfold deref in Hderef. destruct (current_output bot) as [a0 |]; [ | discriminate ].
    destruct (nth_error (objects bot) a0) eqn:E; [ | discriminate ].
    injection Hderef as <- <-. exact E. }
  rewrite (store_output_same _ _ _ Hobj).
  eexists. eexists. split; [ reflexivity | ].
  cbn. rewrite <- app_assoc. repeat split; reflexivity.
Qed.

(** What [revise_section] returns depends on the session through its
    current output only. *)
Lemma revise_section_reads_outputs (bot1 bot2 : SaralChatbot) (section : string)
    (index : Z) (directive : string) (now : Z) :
  current_output bot1 = current_output bot2 ->
  objects bot1 = objects bot2 ->
  fst (revise_section bot1 section index directive now)
  = fst (revise_section bot2 section index directive now).
Proof.
  intros Hc Ho. unfold revise_section, deref. rewrite Hc, Ho.
  destruct (current_output bot2) as [a |]; [ | reflexivity ].
  destruct (nth_error (objects bot2) a) as [output |]; [ | reflexivity ].
  destruct (section_map output section) as [blocks |]; [ | reflexivity ].
  destruct ((0 <=? index)%Z && (index <? Z.of_nat (length blocks))%Z)%bool;
    reflexivity.
Qed.

(** C3, amended.  An [ingest] whose document loads and whose chunks embed
    installs the retriever built from the new chunks and records the path;
    the current output, the stored outputs and the log are as before, so
    [revise_section] answers on the new session as it did on the old. *)
Theorem ingest_replaces_retriever_only (bot : SaralChatbot) (path : string)
    (chunk_config : option Chunker.ChunkConfig)
    (full_text : string) (page_map : list (Z * string)) (r : Retriever.Retriever) :
  load_document path = Some (full_text, page_map) ->
  Retriever.from_chunks
    (Chunker.chunk_text full_text page_map
       (match chunk_config with Some c => c | None => Chunker.default_ChunkConfig end))
  = Ok r ->
  let bot' := snd (ingest bot path chunk_config) in
  fst (ingest bot path chunk_config) = Ok tt
  /\ retriever bot' = Some r
  /\ sources_path bot' = Some path
  /\ current_output bot' = current_output bot
  /\ objects bot' = objects bot
  /\ conversation bot' = conversation bot
  /\ (forall section index directive now,
        fst (revise_section bot' section index directive now)
        = fst (revise_section bot section index directive now)).
Proof.
  intros Hload Hbuild. cbv zeta. unfold ingest. rewrite Hload, Hbuild.
  cbn [fst snd retriever sources_path current_output objects conversation].
  repeat split.
  intros. apply revise_section_reads_outputs; reflexivity.
Qed.

End PipelineFacts.

Section SessionInvariant.
Import PyList Types Pipeline.
Context `{FK : FloatKernel} `{EB : !EmbeddingBackend} `{LM : LanguageModel}
        `{RT : !Generator.PyRuntime} `{DL : DocumentLoader}.

(** [wf_session] holds of a new session and is kept by the three
    operations, whether they return or raise. *)
Lemma wf_new_session (session_id : string) (llm : bool) :
  wf_session (new_session session_id llm).
Proof. exact I. Qed.

Lemma wf_ingest (bot : SaralChatbot) (path : string)
    (chunk_config : option Chunker.ChunkConfig) :
  wf_session bot -> wf_session (snd (ingest bot path chunk_config)).
Proof.
  intros H. unfold ingest.
  destruct (load_document path) as [[full_text page_map] |]; [ | exact H ].
  destruct (Retriever.from_chunks _); exact H.
Qed.

Lemma wf_generate (bot : SaralChatbot) (request : string)
    (audience : AudienceProfile) (config : GenerationConfig) (top_k : Z) :
  wf_session bot -> wf_session (snd (generate bot request audience config top_k)).
Proof.
  intros H. unfold generate.
  destruct (retriever bot) as [r |]; [ | exact H ].
  destruct (Retriever.query r request top_k) as [retrievals | e]; [ | exact H ].
  destruct (generator_outputs bot request retrievals config audience) as [e | output];
    [ exact H | ].
  unfold wf_session. cbn. rewrite length_app. cbn. lia.
Qed.

Lemma set_nth_length {A : Type} (i : nat) (x : A) (l : list A) :
  length (set_nth i x l) = length l.
Proof.
  revert i. induction l as [| y l IH]; intros [| i]; cbn; try reflexivity.
  rewrite IH. reflexivity.
Qed.

Lemma wf_revise_section (bot : SaralChatbot) (section : string) (index : Z)
    (directive : string) (now : Z) :
  wf_session bot ->
  wf_session (snd (revise_section bot section index directive now)).
Proof.
  intros H. unfold revise_section.
  destruct (deref bot) as [[a output] |]; [ | exact H ].
  destruct (section_map output section) as [blocks |]; [ | exact H ].
  destruct ((0 <=? index)%Z && (index <? Z.of_nat (length blocks))%Z)%bool;
    [ | exact H ].
  unfold wf_session in *. cbn. rewrite set_nth_length. exact H.
Qed.

(** The store that [from_chunks] builds has one embedding per chunk. *)
Lemma add_all_wf (pairs : list (RetrievedChunk * Embedding)) :
  VectorStore.wf_store (Retriever.add_all pairs).
Proof.
  unfold Retriever.add_all.
  assert (H : forall st, VectorStore.wf_store st ->
                         VectorStore.wf_store
                           (fold_left (fun st ce =>
                                         VectorStore.add st
                                           (Retriever.with_embedding (fst ce) (snd ce))
                                           (snd ce)) pairs st)).
  { induction pairs as [| ce pairs IH]; intros st Hst; cbn [fold_left];
      [ exact Hst | ].
    apply IH. unfold VectorStore.wf_store, VectorStore.add in *. cbn.
    rewrite !length_app. cbn. lia. }
  apply H. reflexivity.
Qed.

End SessionInvariant.

Section PipelineRuns.
Import PyStr Types Pipeline Fixtures.

(** C3, as stated, fails: after the paper is ingested, an output is
    generated from it and the later draft is ingested, the session still
    holds the output generated from the paper, and a revision of its first
    slide succeeds. *)
Lemma ingest_keeps_prior_output :
  current_output reingested = Some 0
  /\ objects reingested = objects generated
  /\ retriever reingested <> retriever generated
  /\ exists change bot',
       revise reingested "slides" 0 "make it shorter" = (Ok change, bot')
       /\ before change = "Slide 1 - Plain-language take: One."
       /\ after change = "Slide 1 - Plain-language take:...".
Proof.
  split; [ reflexivity | ]. split; [ reflexivity | ]. split.
  - vm_compute. discriminate.
  - eexists. eexists. split; [ vm_compute; reflexivity | ].
    split; reflexivity.
Qed.

Lemma ingest_replaces_retriever_only_witness :
  fst (@Pipeline.ingest int_kernel length_backend paper_loader generated
         "update.txt" None)
  = Ok tt
  /\ current_output reingested = current_output generated
  /\ objects reingested = objects generated
  /\ conversation reingested = conversation generated.
Proof.
  destruct (@ingest_replaces_retriever_only int_kernel length_backend paper_loader
              generated "update.txt" None update_text [(1%Z, update_text)]
              {| Retriever.store :=
                   Retriever.add_all
                     [ (@Build_RetrievedChunk int_kernel "chunk_0" update_text
                          (Some "1") None [], [37%Z]) ] |})
    as (H1 & _ & _ & H4 & H5 & H6 & _).
  - reflexivity.
  - vm_compute. reflexivity.
  - repeat split; assumption.
Defined.

Lemma revise_section_refusal_witness :
  wf_session generated
  /\ (is_raise (fst (revise generated "tweets" 0 "make it shorter")) = true
      <-> revision_refused generated "tweets" 0)
  /\ (is_raise (fst (revise generated "tweets" 0 "make it shorter")) = true ->
      snd (revise generated "tweets" 0 "make it shorter") = generated).
Proof.
  assert (Hwf : wf_session generated) by (vm_compute; lia).
  split; [ exact Hwf | ].
  exact (@revise_section_refusal int_kernel generated "tweets" 0%Z
           "make it shorter" 0%Z Hwf).
Defined.

Lemma revise_section_unmatched_directive_witness :
  exists change bot',
    revise generated "slides" 0 "please rephrase" = (Ok change, bot')
    /\ after change = before change
    /\ objects bot' = objects generated.
Proof.
  destruct (@revise_section_unmatched_directive int_kernel generated "slides" 0%Z
              "please rephrase" 0%Z 0
              (nth 0 (objects generated) (Generator.rule_based_generate_outputs
                                            "" [] (config_of SHORT_30S) plain_audience))
              (slides (nth 0 (objects generated)
                         (Generator.rule_based_generate_outputs
                            "" [] (config_of SHORT_30S) plain_audience))))
    as (change & bot' & H1 & _ & H3 & H4 & _).
  - reflexivity.
  - reflexivity.
  - vm_compute. split; [ discriminate | reflexivity ].
  - reflexivity.
  - reflexivity.
  - reflexivity.
  - exists change, bot'. repeat split; assumption.
Defined.

End PipelineRuns.

(* ------------------------------------------------------------------ *)
(** * Properties of the revision directives *)

Section DirectiveFacts.
Import PyStr Pipeline.

Lemma shorten_word_count (text : string) :
  1 <= word_count text ->
  word_count (shorten text) = min (word_count text) (max 5 (word_count text / 2)).
Proof.
  unfold word_count, shorten. intros Hn.
  set (toks := split text) in *. set (m := max 5 (length toks / 2)).
  rewrite split_join_suffix.
  - rewrite length_firstn. lia.
  - apply Forall_forall. intros t Ht. apply firstn_In in Ht.
    revert t Ht. apply Forall_forall. apply split_tokens.
  - destruct toks as [| t ts]; [ cbn in Hn; lia | ].
    replace m with (S (pred m)) by (unfold m; lia). discriminate.
  - reflexivity.
Qed.

Lemma shorten_only (text directive : string) :
  contains "less technical" (lower directive) = false ->
  contains "more visual" (lower directive) = false ->
  contains "shorter" (lower directive) = true ->
  _apply_directive text directive = shorten text.
Proof.
  intros Hlt Hmv Hsh. unfold _apply_directive. rewrite Hlt, Hmv, Hsh. reflexivity.
Qed.

Lemma revised_has_words (k : nat) (text directive : string) :
  contains "less technical" (lower directive) = false ->
  contains "more visual" (lower directive) = false ->
  contains "shorter" (lower directive) = true ->
  1 <= word_count text ->
  1 <= word_count (revised k text directive).
Proof.
  intros Hlt Hmv Hsh Hn. induction k as [| k IH]; [ exact Hn | ].
  change (revised (S k) text directive)
    with (_apply_directive (revised k text directive) directive).
  rewrite (shorten_only _ _ Hlt Hmv Hsh), (shorten_word_count _ IH). lia.
Qed.

(** C6, amended.  For a text of at least one word and a directive that
    matches [shorter] and neither of the two other patterns, consider the
    text after any number [k] of applications, of [n] words, and apply the
    directive once more.  The new text is the first [max 5 (n / 2)] of the
    [n] words, joined by single spaces, followed by an ellipsis.  Above
    five words the word count strictly decreases and stays at or above
    five; at five words or fewer it does not change, and the new text is
    the words of the old one followed by an ellipsis. *)
Theorem shorter_word_count (text directive : string) (k : nat) :
  contains "less technical" (lower directive) = false ->
  contains "more visual" (lower directive) = false ->
  contains "shorter" (lower directive) = true ->
  1 <= word_count text ->
  let old := revised k text directive in
  let new := revised (S k) text directive in
  1 <= word_count old
  /\ new = join " " (firstn (max 5 (word_count old / 2)) (split old)) ++ "..."
  /\ word_count new = min (word_count old) (max 5 (word_count old / 2))
  /\ (5 < word_count old -> 5 <= word_count new < word_count old)
  /\ (word_count old <= 5 ->
      word_count new = word_count old /\ new = join " " (split old) ++ "...").
Proof.
  intros Hlt Hmv Hsh Hn. cbv zeta.
  pose proof (revised_has_words k text directive Hlt Hmv Hsh Hn) as Hold.
  change (revised (S k) text directive)
    with (_apply_directive (revised k text directive) directive).
  set (old := revised k text directive) in *.
  rewrite (shorten_only old directive Hlt Hmv Hsh).
  pose proof (shorten_word_count old Hold) as Hwc. rewrite Hwc.
  assert (Hhalf : 5 < word_count old -> word_count old / 2 < word_count old)
    by (intros; apply Nat.div_lt; lia).
  split; [ exact Hold | ]. split; [ reflexivity | ]. split; [ reflexivity | ].
  split; [ intros H5; specialize (Hhalf H5); lia | ].
  intros H5. split; [ lia | ].
  unfold shorten. rewrite firstn_all2; [ reflexivity | ].
  unfold word_count in *. lia.
Qed.

End DirectiveFacts.

Section DirectiveRuns.
Import PyStr Pipeline.

(** C6, as stated, fails in two ways.  A text without words gains one: the
    result is the bare ellipsis.  And a directive that also asks for [more
    visual] first appends the six words of the cue, so a six-word text
    keeps its six words although it is above the floor. *)
Lemma shorter_not_always_decreasing :
  word_count "" = 0
  /\ _apply_directive "" "shorter" = "..."
  /\ word_count (_apply_directive "" "shorter") = 1
  /\ contains "shorter" (lower "Shorter, more visual") = true
  /\ word_count "a b c d e f" = 6
  /\ _apply_directive "a b c d e f" "Shorter, more visual" = "a b c d e f..."
  /\ word_count (_apply_directive "a b c d e f" "Shorter, more visual") = 6.
Proof. repeat split; vm_compute; reflexivity. Qed.

Lemma shorter_word_count_witness :
  revised 1 "one two three four five six seven eight nine ten eleven twelve"
            "make it shorter"
  = "one two three four five six..."
  /\ revised 2 "one two three four five six seven eight nine ten eleven twelve"
               "make it shorter"
     = "one two three four five..."
  /\ word_count
       (revised 2 "one two three four five six seven eight nine ten eleven twelve"
                  "make it shorter")
     < word_count
         (revised 1 "one two three four five six seven eight nine ten eleven twelve"
                    "make it shorter").
Proof.
  destruct (shorter_word_count
              "one two three four five six seven eight nine ten eleven twelve"
              "make it shorter" 1)
    as (_ & H2 & _ & H4 & _).
  - reflexivity.
  - reflexivity.
  - reflexivity.
  - vm_compute. lia.
  - split; [ reflexivity | ]. split; [ rewrite H2; reflexivity | ].
    apply H4. vm_compute. lia.
Defined.

End DirectiveRuns.

(* ------------------------------------------------------------------ *)
(** * Properties of the chunker *)

Section SplitFacts.
Import PyStr Chunker.

Lemma length_append (a b : string) :
  String.length (a ++ b) = String.length a + String.length b.
Proof. induction a as [| c a IH]; cbn; [ reflexivity | rewrite IH; reflexivity ]. Qed.

Lemma join_length (l : list string) : String.length (join " " l) = weight l.
Proof.
  unfold weight. induction l as [| x l IH]; [ reflexivity | ].
  destruct l as [| y l].
  - cbn. lia.
  - rewrite join_cons by discriminate. rewrite !length_append, IH.
    cbn. lia.
Qed.

Lemma weight_app_le (a b : list string) : weight a <= weight (a ++ b)%list.
Proof. unfold weight. rewrite map_app, list_sum_app, length_app. lia. Qed.

Lemma weight_push (c : ascii) (l : list string) :
  l <> [] -> weight (push c l) = S (weight l).
Proof. destruct l as [| x l]; [ contradiction | ]. intros _. unfold weight. cbn. lia. Qed.

Lemma weight_empty_cons (l : list string) :
  l <> [] -> weight (EmptyString :: l) = S (weight l).
Proof. destruct l as [| x l]; [ contradiction | ]. intros _. unfold weight. cbn. lia. Qed.

Lemma re_split_from_nonempty (in_sep prev_punct : bool) (s : string) :
  re_split_from in_sep prev_punct s <> [].
Proof.
  revert in_sep prev_punct. induction s as [| c s IH]; intros in_sep prev_punct.
  - discriminate.
  - cbn [re_split_from].
    assert (Hpush : forall l, push c l <> []) by (intros [| ? ?]; discriminate).
    destruct in_sep; [ destruct (is_space c); [ apply IH | apply Hpush ] | ].
    destruct (is_space c && prev_punct)%bool; [ discriminate | apply Hpush ].
Qed.

(** The pieces of the sentence pattern, joined by single spaces, are no
    longer than the text. *)
Lemma re_split_from_weight (in_sep prev_punct : bool) (s : string) :
  weight (re_split_from in_sep prev_punct s) <= String.length s.
Proof.
  revert in_sep prev_punct. induction s as [| c s IH]; intros in_sep prev_punct.
  - cbn. lia.
  - cbn [re_split_from String.length].
    assert (Hpush : forall b, weight (push c (re_split_from false b s)) <= S (String.length s)).
    { intros b. rewrite weight_push by apply re_split_from_nonempty.
      specialize (IH false b). lia. }
    destruct in_sep.
    + destruct (is_space c); [ specialize (IH true false); lia | apply Hpush ].
    + destruct (is_space c && prev_punct)%bool; [ | apply Hpush ].
      rewrite weight_empty_cons by apply re_split_from_nonempty.
      specialize (IH true false). lia.
Qed.

Lemma lstrip_length (s : string) : String.length (lstrip s) <= String.length s.
Proof.
  induction s as [| c s IH]; cbn [lstrip]; [ lia | ].
  destruct (is_space c); cbn [String.length] in *; lia.
Qed.

Lemma rstrip_length (s : string) : String.length (rstrip s) <= String.length s.
Proof.
  induction s as [| c s IH]; cbn [rstrip]; [ cbn; lia | ].
  destruct (rstrip s) as [| c' r]; [ destruct (is_space c) | ];
    cbn [String.length] in *; lia.
Qed.

Lemma strip_length (s : string) : String.length (strip s) <= String.length s.
Proof.
  unfold strip. pose proof (rstrip_length (lstrip s)). pose proof (lstrip_length s). lia.
Qed.

Lemma weight_strip_filter (f : string -> bool) (l : list string) :
  weight (map strip (filter f l)) <= weight l.
Proof.
  assert (H : list_sum (map String.length (map strip (filter f l)))
              <= list_sum (map String.length l)
              /\ length (map strip (filter f l)) <= length l).
  { induction l as [| x l [IH1 IH2]]; [ cbn; lia | ].
    cbn [filter]. destruct (f x); simpl.
    - pose proof (strip_length x). lia.
    - lia. }
  unfold weight. lia.
Qed.

(** The sentences of a text, joined by single spaces, are no longer than
    the text. *)
Lemma simple_sentence_split_weight (full_text : string) :
  weight (simple_sentence_split full_text) <= String.length full_text.
Proof.
  unfold simple_sentence_split, re_split_sentences.
  pose proof (weight_strip_filter (fun s => nonempty (strip s))
                (re_split_from false false (strip full_text))).
  pose proof (re_split_from_weight false false (strip full_text)).
  pose proof (strip_length full_text). lia.
Qed.

Lemma lstrip_head (s : string) (c : ascii) (t : string) :
  lstrip s = String c t -> is_space c = false.
Proof.
  induction s as [| c0 s IH]; cbn [lstrip]; [ discriminate | ].
  destruct (is_space c0) eqn:Hc0; [ exact IH | ].
  intros H. injection H as <- _. exact Hc0.
Qed.

Lemma rstrip_head (s : string) (c : ascii) (t : string) :
  rstrip s = String c t -> exists t', s = String c t'.
Proof.
  destruct s as [| c0 s]; cbn [rstrip]; [ discriminate | ].
  destruct (rstrip s); [ destruct (is_space c0); [ discriminate | ] | ];
    intros H; injection H as <- _; eexists; reflexivity.
Qed.

Lemma rstrip_keeps_head (c : ascii) (s : string) :
  is_space c = false -> exists r, rstrip (String c s) = String c r.
Proof.
  intros Hc. cbn [rstrip]. rewrite Hc.
  destruct (rstrip s); eexists; reflexivity.
Qed.

(** A text with a character that is not whitespace has a sentence. *)
Lemma simple_sentence_split_nonempty (full_text : string) :
  strip full_text <> EmptyString -> simple_sentence_split full_text <> [].
Proof.
  intros Hne. unfold simple_sentence_split, re_split_sentences.
  destruct (strip full_text) as [| c t] eqn:Hs; [ contradiction | ].
  assert (Hc : is_space c = false).
  { unfold strip in Hs. destruct (rstrip_head _ _ _ Hs) as (t' & Hl).
    exact (lstrip_head _ _ _ Hl). }
  cbn [re_split_from]. change (false && false)%bool with false.
  rewrite Hc. cbn [andb].
  destruct (re_split_from false (is_punct c) t) as [| piece rest] eqn:Hr.
  { exfalso. exact (re_split_from_nonempty _ _ _ Hr). }
  cbn [push filter].
  assert (Hkeep : nonempty (strip (String c piece)) = true).
  { unfold strip. cbn [lstrip]. rewrite Hc.
    destruct (rstrip_keeps_head c piece Hc) as (r & ->). reflexivity. }
  rewrite Hkeep. discriminate.
Qed.

Lemma str_nat_inj (n m : nat) : str_nat n = str_nat m -> n = m.
Proof.
  unfold str_nat. intros H. apply DecimalNat.Unsigned.to_uint_inj.
  assert (E : NilEmpty.uint_of_string (NilEmpty.string_of_uint (Nat.to_uint n))
              = NilEmpty.uint_of_string (NilEmpty.string_of_uint (Nat.to_uint m)))
    by (rewrite H; reflexivity).
  rewrite !NilEmpty.usu in E. injection E as E. exact E.
Qed.

Lemma chunk_name_inj (n m : nat) : chunk_name n = chunk_name m -> n = m.
Proof.
  unfold chunk_name. cbn [append]. intros H. apply str_nat_inj. congruence.
Qed.

Lemma chunk_names_NoDup (n : nat) : NoDup (map chunk_name (seq 0 n)).
Proof.
  generalize 0. induction n as [| n IH]; intros a; cbn [seq map]; constructor.
  - rewrite in_map_iff. intros (i & Hi & Hin). apply chunk_name_inj in Hi. subst i.
    apply in_seq in Hin. lia.
  - apply IH.
Qed.

End SplitFacts.

Section ChunkerFacts.
Import PyStr PyList Types Chunker.
Context `{FK : FloatKernel}.

Lemma numbered_snoc (cs : list RetrievedChunk) (body : string) (pointer : nat)
    (page_map : list (Z * string)) :
  numbered cs -> numbered (cs ++ [new_chunk (length cs) body pointer page_map])%list.
Proof.
  unfold numbered. intros H.
  rewrite map_app, length_app, H. cbn [length map new_chunk rc_chunk_id].
  rewrite Nat.add_1_r, seq_S, map_app. reflexivity.
Qed.

Lemma chunk_step_numbered (page_map : list (Z * string)) (config : ChunkConfig)
    (st : ChunkState) (sentence : string) :
  numbered (chunks st) -> numbered (chunks (chunk_step page_map config st sentence)).
Proof.
  intros H. unfold chunk_step.
  destruct (chunk_size config <=? _)%Z; cbn [chunks]; [ apply numbered_snoc | ]; exact H.
Qed.

Lemma chunk_loop_numbered (page_map : list (Z * string)) (config : ChunkConfig)
    (sentences : list string) (st : ChunkState) :
  numbered (chunks st) ->
  numbered (chunks (fold_left (chunk_step page_map config) sentences st)).
Proof.
  revert st. induction sentences as [| s rest IH]; intros st H; cbn [fold_left].
  - exact H.
  - apply IH. apply chunk_step_numbered. exact H.
Qed.

(** While the joined window stays below [chunk_size] the loop only grows
    the window. *)
Lemma chunk_loop_small (page_map : list (Z * string)) (config : ChunkConfig)
    (sentences w : list string) (cs : list RetrievedChunk) (p : nat) :
  (Z.of_nat (weight (w ++ sentences)) < chunk_size config)%Z ->
  fold_left (chunk_step page_map config) sentences
            {| window := w; chunks := cs; pointer := p |}
  = {| window := (w ++ sentences)%list; chunks := cs;
       pointer := p + list_sum (map String.length sentences) |}.
Proof.
  revert w p. induction sentences as [| s rest IH]; intros w p Hsmall.
  - cbn. rewrite app_nil_r, Nat.add_0_r. reflexivity.
  - cbn [fold_left]. unfold chunk_step at 2. cbn [window chunks pointer].
    replace (w ++ s :: rest)%list with ((w ++ [s]) ++ rest)%list in *
      by (rewrite <- app_assoc; reflexivity).
    pose proof (weight_app_le (w ++ [s]) rest) as Hle.
    rewrite join_length.
    destruct (chunk_size config <=? Z.of_nat (weight (w ++ [s])))%Z eqn:Hc.
    { apply Z.leb_le in Hc. lia. }
    rewrite IH by exact Hsmall.
    simpl. f_equal. lia.
Qed.

(** C9, amended.  Whatever the configuration: the empty text yields no
    chunk; a text that has a character other than whitespace and is shorter
    than [chunk_size] yields exactly one chunk; and the ids of the chunks
    of any text are [chunk_0], [chunk_1], ... in emission order, hence
    pairwise distinct. *)
Theorem chunk_text_edge_cases (full_text : string) (page_map : list (Z * string))
    (config : ChunkConfig) :
  chunk_text "" page_map config = []
  /\ (strip full_text <> "" ->
      (Z.of_nat (String.length full_text) < chunk_size config)%Z ->
      length (chunk_text full_text page_map config) = 1)
  /\ map rc_chunk_id (chunk_text full_text page_map config)
     = map chunk_name (seq 0 (length (chunk_text full_text page_map config)))
  /\ NoDup (map rc_chunk_id (chunk_text full_text page_map config)).
Proof.
  assert (Hnum : numbered (chunk_text full_text page_map config)).
  { unfold chunk_text, chunk_loop.
    set (st := fold_left _ _ _).
    assert (Hst : numbered (chunks st))
      by (apply chunk_loop_numbered; reflexivity).
    destruct (window st); [ exact Hst | apply numbered_snoc; exact Hst ]. }
  split; [ reflexivity | ]. split; [ | split ].
  - intros Hne Hlen. unfold chunk_text, chunk_loop.
    pose proof (simple_sentence_split_weight full_text) as Hw.
    pose proof (simple_sentence_split_nonempty full_text Hne) as Hs.
    rewrite chunk_loop_small by (cbn [app]; lia).
    cbn [window chunks app].
    destruct (simple_sentence_split full_text); [ contradiction | reflexivity ].
  - exact Hnum.
  - rewrite Hnum. apply chunk_names_NoDup.
Qed.

End ChunkerFacts.

Section ChunkerRuns.
Import PyStr Types Chunker Fixtures.

(** C9, as stated, fails on a blank document: the text of one space is not
    empty and is shorter than [chunk_size], and it yields no chunk. *)
Lemma blank_document_no_chunk :
  String.length " " = 1
  /\ @chunk_text int_kernel " " [] default_ChunkConfig = [].
Proof. split; reflexivity. Qed.

End ChunkerRuns.

(* ------------------------------------------------------------------ *)
(** * Properties of the vector store *)

Section ListFacts.
Context {A : Type}.

Lemma skipn_In (n : nat) (l : list A) (x : A) : In x (skipn n l) -> In x l.
Proof.
  revert l. induction n as [| n IH]; intros [| y l] H; cbn [skipn] in H;
    try assumption.
  right. apply IH. exact H.
Qed.

Lemma StronglySorted_skipn (R : A -> A -> Prop) (n : nat) (l : list A) :
  StronglySorted R l -> StronglySorted R (skipn n l).
Proof.
  revert l. induction n as [| n IH]; intros l H; [ exact H | ].
  destruct H as [| x l Hl _]; cbn [skipn]; [ constructor | apply IH; exact Hl ].
Qed.

Lemma StronglySorted_snoc (R : A -> A -> Prop) (l : list A) (x : A) :
  StronglySorted R l -> Forall (fun y => R y x) l -> StronglySorted R (l ++ [x]).
Proof.
  induction 1 as [| y l Hl IH Hy]; intros Hx; cbn [app].
  - constructor; constructor.
  - inversion Hx as [| ? ? Hyx Hlx]; subst. constructor.
    + apply IH. exact Hlx.
    + apply Forall_app. split; [ exact Hy | constructor; [ exact Hyx | constructor ] ].
Qed.

Lemma StronglySorted_rev (R : A -> A -> Prop) (l : list A) :
  StronglySorted R l -> StronglySorted (fun x y => R y x) (rev l).
Proof.
  induction 1 as [| x l Hl IH Hx]; cbn [rev]; [ constructor | ].
  apply StronglySorted_snoc; [ exact IH | ].
  apply Forall_rev. exact Hx.
Qed.

End ListFacts.

Section VectorStoreFacts.
Import PyList Types VectorStore.
Context `{FK : FloatKernel}.

Lemma wf_store_empty : wf_store empty.
Proof. reflexivity. Qed.

Lemma wf_store_add (st : VectorStore) (c : RetrievedChunk) (e : Embedding) :
  wf_store st -> wf_store (add st c e).
Proof. unfold wf_store, add. cbn. rewrite !length_app. cbn. lia. Qed.

Lemma insert_index_In (x z : nat * Score) (l : list (nat * Score)) :
  In z (insert_index x l) <-> z = x \/ In z l.
Proof.
  induction l as [| j r IH]; cbn [insert_index].
  - cbn. intuition.
  - destruct (score_leb (snd x) (snd j)); cbn [In]; [ intuition | ].
    rewrite IH. intuition.
Qed.

Lemma insert_index_length (x : nat * Score) (l : list (nat * Score)) :
  length (insert_index x l) = S (length l).
Proof.
  induction l as [| j r IH]; cbn [insert_index]; [ reflexivity | ].
  destruct (score_leb (snd x) (snd j)); cbn [length]; [ | rewrite IH ]; reflexivity.
Qed.

Hypothesis Htotal : leb_total.
Hypothesis Htrans : leb_trans.

(** Inserting a row that is older than every row of a sorted list keeps
    the list sorted and stable. *)
Lemma insert_index_sorted (x : nat * Score) (l : list (nat * Score)) :
  StronglySorted asc_stable l ->
  Forall (fun z => fst x < fst z) l ->
  StronglySorted asc_stable (insert_index x l).
Proof.
  induction 1 as [| j r Hr IH Hj]; intros Hold; cbn [insert_index].
  - constructor; constructor.
  - inversion Hold as [| ? ? Hxj Hxr]; subst.
    destruct (score_leb (snd x) (snd j)) eqn:Hle.
    + constructor; [ constructor; assumption | ].
      constructor; [ split; [ exact Hle | intros _; exact Hxj ] | ].
      rewrite Forall_forall in Hj, Hxr |- *. intros z Hz.
      destruct (Hj z Hz) as [Hjz _]. split.
      * exact (Htrans _ _ _ Hle Hjz).
      * intros _. exact (Hxr z Hz).
    + constructor; [ exact (IH Hxr) | ].
      rewrite Forall_forall in Hj |- *. intros z Hz.
      apply insert_index_In in Hz. destruct Hz as [-> | Hz]; [ | exact (Hj z Hz) ].
      split.
      * destruct (Htotal (snd x) (snd j)) as [H | H]; [ congruence | exact H ].
      * intros H. congruence.
Qed.

(** [argsort] on the rows [a], [a + 1], ... *)
Lemma argsort_from_spec (a : nat) (scores : list Score) :
  let l := fold_right insert_index [] (combine (seq a (length scores)) scores) in
  StronglySorted asc_stable l
  /\ Forall (fun z => a <= fst z < a + length scores
                      /\ nth_error scores (fst z - a) = Some (snd z)) l
  /\ length l = length scores.
Proof.
  cbv zeta. revert a. induction scores as [| s rest IH]; intros a.
  - cbn. repeat split; constructor.
  - cbn [length seq combine fold_right].
    destruct (IH (S a)) as (Hsorted & Hrows & Hlen).
    split; [ | split ].
    + apply insert_index_sorted; [ exact Hsorted | ].
      rewrite Forall_forall in Hrows |- *. intros z Hz.
      destruct (Hrows z Hz) as [Hb _]. cbn [fst]. lia.
    + rewrite Forall_forall in Hrows |- *. intros z Hz.
      apply insert_index_In in Hz. destruct Hz as [-> | Hz].
      * cbn [fst snd]. rewrite Nat.sub_diag. split; [ lia | reflexivity ].
      * destruct (Hrows z Hz) as [Hb Hs]. split; [ lia | ].
        replace (fst z - a) with (S (fst z - S a)) by lia. exact Hs.
    + rewrite insert_index_length, Hlen. reflexivity.
Qed.

Lemma argsort_spec (scores : list Score) :
  StronglySorted asc_stable (argsort scores)
  /\ Forall (fun z => fst z < length scores
                      /\ nth_error scores (fst z) = Some (snd z)) (argsort scores)
  /\ length (argsort scores) = length scores.
Proof.
  destruct (argsort_from_spec 0 scores) as (H1 & H2 & H3).
  split; [ exact H1 | split; [ | exact H3 ] ].
  rewrite Forall_forall in H2. apply Forall_forall. intros z Hz.
  destruct (H2 z Hz) as [Hb Hs]. rewrite Nat.sub_0_r in Hs. split; [ lia | exact Hs ].
Qed.

Lemma best_idx_spec (scores : list Score) (k : Z) :
  ranked (best_idx scores k)
  /\ Forall (fun z => fst z < length scores
                      /\ nth_error scores (fst z) = Some (snd z)) (best_idx scores k)
  /\ ((1 <= k)%Z ->
      Z.of_nat (length (best_idx scores k)) = Z.min k (Z.of_nat (length scores))).
Proof.
  destruct (argsort_spec scores) as (Hsorted & Hrows & Hlen).
  unfold best_idx, slice_last, ranked. split; [ | split ].
  - apply (StronglySorted_rev asc_stable). apply StronglySorted_skipn. exact Hsorted.
  - apply Forall_rev. rewrite Forall_forall in Hrows |- *.
    intros z Hz. apply skipn_In in Hz. exact (Hrows z Hz).
  - intros Hk. rewrite length_rev, length_skipn, Hlen.
    destruct (0 <? k)%Z eqn:Hpos; [ | apply Z.ltb_ge in Hpos; lia ].
    lia.
Qed.

Lemma collect_results_ok (cs : list RetrievedChunk) (idx : list (nat * Score)) :
  Forall (fun z => fst z < length cs) idx ->
  exists rs,
    collect_results cs idx = Ok rs
    /\ Forall2 (fun z r => nth_error cs (fst z) = Some (chunk r) /\ rr_score r = snd z)
               idx rs.
Proof.
  induction 1 as [| [i s] idx Hi _ (rs & Hrs & Hall)]; cbn [collect_results].
  - exists []. split; [ reflexivity | constructor ].
  - cbn [fst] in Hi. destruct (nth_error cs i) as [c |] eqn:Hc.
    2:{ apply nth_error_None in Hc. lia. }
    rewrite Hrs. eexists. split; [ reflexivity | ].
    constructor; [ split; [ exact Hc | reflexivity ] | exact Hall ].
Qed.

Lemma by_score_desc_of_ranked (st : VectorStore) (q : Embedding)
    (idx : list (nat * Score)) (rs : list RetrievalResult) :
  Forall2 (picks st q) idx rs -> ranked idx -> by_score_desc rs.
Proof.
  unfold ranked, by_score_desc.
  induction 1 as [| z r idx rs Hzr Hall IH]; intros Hsorted; [ constructor | ].
  inversion Hsorted as [| ? ? Htail Hhead]; subst.
  constructor; [ exact (IH Htail) | ].
  clear IH Hsorted Htail. induction Hall as [| z' r' idx rs Hzr' Hall IH'];
    [ constructor | ].
  inversion Hhead as [| ? ? Hz Hrest]; subst.
  constructor; [ | exact (IH' Hrest) ].
  destruct Hzr as (_ & -> & _), Hzr' as (_ & -> & _). exact (proj1 Hz).
Qed.


End VectorStoreFacts.

Section VectorStoreRuns.
Import Types VectorStore Fixtures.

Lemma int_leb_total : @leb_total int_kernel.
Proof. intros a b. cbn in *. rewrite !Z.leb_le. lia. Qed.

Lemma int_leb_trans : @leb_trans int_kernel.
Proof. intros a b c. cbn in *. rewrite !Z.leb_le. lia. Qed.



End VectorStoreRuns.

(* ------------------------------------------------------------------ *)
(** * Further properties of the chunker *)

Section SentenceFacts.
Import PyStr Chunker.

Lemma rstrip_cons (c : ascii) (s : string) :
  rstrip (String c s)
  = match rstrip s with
    | EmptyString => if is_space c then EmptyString else String c EmptyString
    | String c' r => String c (String c' r)
    end.
Proof. reflexivity. Qed.

Lemma rstrip_idem (s : string) : rstrip (rstrip s) = rstrip s.
Proof.
  induction s as [| c s IH]; [ reflexivity | ].
  rewrite rstrip_cons. destruct (rstrip s) as [| c' r] eqn:Hr.
  - destruct (is_space c) eqn:Hc; [ reflexivity | ].
    rewrite rstrip_cons. cbn [rstrip]. rewrite Hc. reflexivity.
  - rewrite rstrip_cons, IH. reflexivity.
Qed.

Lemma strip_idem (s : string) : strip (strip s) = strip s.
Proof.
  unfold strip. destruct (rstrip (lstrip s)) as [| c r] eqn:Hr; [ reflexivity | ].
  destruct (rstrip_head _ _ _ Hr) as (t' & Hl).
  pose proof (lstrip_head _ _ _ Hl) as Hc.
  cbn [lstrip]. rewrite Hc, <- Hr. apply rstrip_idem.
Qed.

Lemma nonempty_true (s : string) : nonempty s = true -> s <> EmptyString.
Proof. destruct s; [ discriminate | intros _; discriminate ]. Qed.

(** X1.  Every sentence the splitter returns is non-empty and carries no
    whitespace at either end. *)
Theorem simple_sentence_split_trimmed (text : string) :
  Forall (fun s => s <> EmptyString /\ strip s = s) (simple_sentence_split text).
Proof.
  unfold simple_sentence_split. apply Forall_forall. intros s Hs.
  apply in_map_iff in Hs. destruct Hs as (x & <- & Hx).
  apply filter_In in Hx. destruct Hx as [_ Hx].
  split; [ apply nonempty_true; exact Hx | apply strip_idem ].
Qed.

Lemma simple_sentence_split_blank (text : string) :
  strip text = EmptyString -> simple_sentence_split text = [].
Proof. intros H. unfold simple_sentence_split. rewrite H. reflexivity. Qed.

End SentenceFacts.

Section ChunkLoopFacts.
Import PyStr PyList Types Chunker Vocabulary.
Context `{FK : FloatKernel}.

(** A property that every step of the loop keeps holds at its end. *)
Lemma chunk_loop_keeps (page_map : list (Z * string)) (config : ChunkConfig)
    (P : ChunkState -> Prop) :
  (forall st s, P st -> P (chunk_step page_map config st s)) ->
  forall sentences st,
    P st -> P (fold_left (chunk_step page_map config) sentences st).
Proof.
  intros Hstep sentences. induction sentences as [| s rest IH]; intros st H;
    cbn [fold_left]; [ exact H | apply IH, Hstep, H ].
Qed.

Lemma chunk_step_leaves_something (page_map : list (Z * string))
    (config : ChunkConfig) (st : ChunkState) (s : string) :
  chunks (chunk_step page_map config st s) <> []
  \/ window (chunk_step page_map config st s) <> [].
Proof.
  unfold chunk_step. destruct (chunk_size config <=? _)%Z; cbn [chunks window].
  - left. destruct (chunks st); discriminate.
  - right. destruct (window st); discriminate.
Qed.

Lemma chunk_loop_leaves_something (page_map : list (Z * string))
    (config : ChunkConfig) (sentences : list string) (st : ChunkState) :
  sentences <> [] ->
  chunks (fold_left (chunk_step page_map config) sentences st) <> []
  \/ window (fold_left (chunk_step page_map config) sentences st) <> [].
Proof.
  intros Hne. destruct sentences as [| s rest]; [ contradiction | ].
  cbn [fold_left].
  apply (chunk_loop_keeps page_map config
           (fun st => chunks st <> [] \/ window st <> [])).
  - intros st' s' _. apply chunk_step_leaves_something.
  - apply chunk_step_leaves_something.
Qed.

(** X2.  A text yields no chunk exactly when it is blank (empty or whitespace
    only), whatever the page map and the configuration. *)
Theorem chunk_text_empty_iff_blank (full_text : string)
    (page_map : list (Z * string)) (config : ChunkConfig) :
  chunk_text full_text page_map config = [] <-> strip full_text = EmptyString.
Proof.
  split.
  - intros Hnil. destruct (string_dec (strip full_text) EmptyString) as [E | Hne];
      [ exact E | exfalso ].
    pose proof (simple_sentence_split_nonempty full_text Hne) as Hs.
    unfold chunk_text, chunk_loop in Hnil.
    destruct (chunk_loop_leaves_something page_map config _
                {| window := []; chunks := []; pointer := 0 |} Hs) as [Hc | Hw].
    + destruct (window _); [ contradiction | ].
      destruct (chunks _); discriminate.
    + destruct (window _); [ contradiction | ].
      destruct (chunks _); discriminate.
  - intros Hblank. unfold chunk_text, chunk_loop.
    rewrite (simple_sentence_split_blank _ Hblank). reflexivity.
Qed.

Lemma chunk_step_full_size (page_map : list (Z * string)) (config : ChunkConfig)
    (st : ChunkState) (s : string) :
  Forall (full_size config) (chunks st) ->
  Forall (full_size config) (chunks (chunk_step page_map config st s)).
Proof.
  intros H. unfold chunk_step.
  destruct (chunk_size config <=? _)%Z eqn:Hc; cbn [chunks]; [ | exact H ].
  apply Forall_app. split; [ exact H | ].
  constructor; [ | constructor ].
  unfold full_size. cbn [new_chunk rc_text]. apply Z.leb_le. exact Hc.
Qed.

Lemma chunk_step_count (page_map : list (Z * string)) (config : ChunkConfig)
    (st : ChunkState) (s : string) :
  length (chunks (chunk_step page_map config st s)) <= S (length (chunks st)).
Proof.
  unfold chunk_step. destruct (chunk_size config <=? _)%Z; cbn [chunks].
  - rewrite length_app. cbn. lia.
  - lia.
Qed.

Lemma chunk_loop_count (page_map : list (Z * string)) (config : ChunkConfig)
    (sentences : list string) (st : ChunkState) :
  length (chunks (fold_left (chunk_step page_map config) sentences st))
  <= length (chunks st) + length sentences.
Proof.
  revert st. induction sentences as [| s rest IH]; intros st; cbn [fold_left length].
  - lia.
  - specialize (IH (chunk_step page_map config st s)).
    pose proof (chunk_step_count page_map config st s). lia.
Qed.

(** X3.  Every chunk but the last is at least [chunk_size] characters long, and
    there are at most as many chunks as sentences, plus one. *)
Theorem chunk_text_sizes (full_text : string) (page_map : list (Z * string))
    (config : ChunkConfig) :
  Forall (full_size config) (removelast (chunk_text full_text page_map config))
  /\ length (chunk_text full_text page_map config)
     <= S (length (simple_sentence_split full_text)).
Proof.
  unfold chunk_text, chunk_loop.
  pose proof (chunk_loop_keeps page_map config
                (fun st => Forall (full_size config) (chunks st))
                (chunk_step_full_size page_map config)
                (simple_sentence_split full_text)
                {| window := []; chunks := []; pointer := 0 |} (Forall_nil _))
    as Hfull.
  pose proof (chunk_loop_count page_map config
                (simple_sentence_split full_text)
                {| window := []; chunks := []; pointer := 0 |}) as Hcount.
  cbn beta in Hfull. change (length (chunks {| window := []; chunks := []; pointer := 0 |}))
    with 0 in Hcount.
  set (st := fold_left _ _ _) in *.
  destruct (window st).
  - split; [ | lia ].
    apply Forall_forall. intros c Hc. rewrite Forall_forall in Hfull.
    apply Hfull. clear - Hc. induction (chunks st) as [| x l IH]; [ contradiction | ].
    destruct l as [| y l]; [ contradiction | ].
    cbn [removelast] in Hc. destruct Hc as [-> | Hc]; [ left; reflexivity | ].
    right. apply IH. exact Hc.
  - rewrite removelast_last, length_app. cbn [length]. split; [ exact Hfull | lia ].
Qed.

Lemma chunk_step_partitioned (page_map : list (Z * string)) (config : ChunkConfig)
    (done : list string) (st : ChunkState) (s : string) :
  (overlap config <= 0)%Z ->
  partitioned done (window st) (chunks st) ->
  partitioned (done ++ [s])%list
              (window (chunk_step page_map config st s))
              (chunks (chunk_step page_map config st s)).
Proof.
  intros Hov (groups & Hcat & Hne & Htexts). unfold chunk_step.
  destruct (chunk_size config <=? _)%Z; cbn [window chunks].
  - assert (Hno : (0 <? overlap config)%Z = false) by (apply Z.ltb_ge; exact Hov).
    rewrite Hno. exists (groups ++ [window st ++ [s]])%list. split; [ | split ].
    + rewrite concat_app. cbn [concat]. rewrite !app_nil_r, app_assoc, Hcat.
      reflexivity.
    + apply Forall_app. split; [ exact Hne | ].
      constructor; [ destruct (window st); discriminate | constructor ].
    + rewrite !map_app, Htexts. reflexivity.
  - exists groups. split; [ | split; assumption ].
    rewrite app_assoc, Hcat. reflexivity.
Qed.

Lemma chunk_loop_partitioned (page_map : list (Z * string)) (config : ChunkConfig)
    (sentences done : list string) (st : ChunkState) :
  (overlap config <= 0)%Z ->
  partitioned done (window st) (chunks st) ->
  partitioned (done ++ sentences)%list
              (window (fold_left (chunk_step page_map config) sentences st))
              (chunks (fold_left (chunk_step page_map config) sentences st)).
Proof.
  intros Hov. revert done st.
  induction sentences as [| s rest IH]; intros done st H; cbn [fold_left].
  - rewrite app_nil_r. exact H.
  - replace (done ++ s :: rest)%list with ((done ++ [s]) ++ rest)%list
      by (rewrite <- app_assoc; reflexivity).
    apply IH. apply chunk_step_partitioned; assumption.
Qed.

(** X4.  With no overlap the chunks cut the sentence sequence of the document
    into consecutive non-empty groups, in order, each chunk being the
    sentences of one group joined by single spaces: no sentence is lost,
    repeated or moved. *)
Theorem chunk_text_no_overlap_partition (full_text : string)
    (page_map : list (Z * string)) (config : ChunkConfig) :
  (overlap config <= 0)%Z ->
  exists groups,
    concat groups = simple_sentence_split full_text
    /\ Forall (fun g => g <> []) groups
    /\ map rc_text (chunk_text full_text page_map config) = map (join " ") groups.
Proof.
  intros Hov. unfold chunk_text, chunk_loop.
  destruct (chunk_loop_partitioned page_map config
              (simple_sentence_split full_text) []
              {| window := []; chunks := []; pointer := 0 |} Hov)
    as (groups & Hcat & Hne & Htexts).
  { exists []. repeat split; constructor. }
  cbn [app] in Hcat. set (st := fold_left _ _ _) in *.
  destruct (window st) as [| w ws] eqn:Hw.
  - exists groups. rewrite app_nil_r in Hcat. repeat split; assumption.
  - exists (groups ++ [w :: ws])%list. split; [ | split ].
    + rewrite concat_app. cbn [concat]. rewrite app_nil_r. exact Hcat.
    + apply Forall_app. split; [ exact Hne | constructor; [ discriminate | constructor ] ].
    + rewrite !map_app, Htexts. reflexivity.
Qed.

Lemma infer_page_from_key (pointer cumulative : nat) (pages : list (Z * string))
    (p : string) :
  infer_page_from pointer cumulative pages = Some p ->
  exists k, In k (map fst pages) /\ p = str_Z k.
Proof.
  revert cumulative. induction pages as [| [k content] rest IH]; intros cumulative;
    cbn [infer_page_from]; [ discriminate | ].
  destruct (pointer <=? cumulative + String.length content).
  - intros H. injection H as <-. exists k. split; [ left; reflexivity | reflexivity ].
  - intros H. destruct (IH _ H) as (k' & Hk' & ->).
    exists k'. split; [ right; exact Hk' | reflexivity ].
Qed.

Lemma fold_max_In (l : list Z) (k : Z) : In (fold_left Z.max l k) (k :: l).
Proof.
  revert k. induction l as [| x l IH]; intros k; cbn [fold_left].
  - left. reflexivity.
  - destruct (IH (Z.max k x)) as [H | H].
    + rewrite <- H.
      destruct (Z.max_spec k x) as [[_ ->] | [_ ->]];
        [ right; left; reflexivity | left; reflexivity ].
    + right. right. exact H.
Qed.

Lemma _infer_page_from (pointer : nat) (page_map : list (Z * string)) :
  page_from page_map (_infer_page pointer page_map).
Proof.
  unfold _infer_page, page_from. destruct page_map as [| [k content] rest];
    [ reflexivity | ].
  destruct (infer_page_from pointer 0 ((k, content) :: rest)) as [p |] eqn:Hp.
  - exact (infer_page_from_key _ _ _ _ Hp).
  - exists (max_key ((k, content) :: rest)). split; [ | reflexivity ].
    cbn [max_key map fst]. apply fold_max_In.
Qed.

Lemma new_chunk_fresh (n : nat) (body : string) (pointer : nat)
    (page_map : list (Z * string)) :
  fresh_chunk page_map (new_chunk n body pointer page_map).
Proof.
  unfold fresh_chunk, new_chunk. cbn. repeat split.
  eexists. split; [ reflexivity | apply _infer_page_from ].
Qed.

(** X5.  Every chunk leaves the chunker without an embedding and without
    metadata, on a page that is [?] when there is no page map and else the
    number of one of the pages of the map. *)
Theorem chunk_text_fresh_chunks (full_text : string) (page_map : list (Z * string))
    (config : ChunkConfig) :
  Forall (fresh_chunk page_map) (chunk_text full_text page_map config).
Proof.
  unfold chunk_text, chunk_loop.
  pose proof (chunk_loop_keeps page_map config
                (fun st => Forall (fresh_chunk page_map) (chunks st))) as Hkeep.
  set (st := fold_left _ _ _).
  assert (Hst : Forall (fresh_chunk page_map) (chunks st)).
  { apply Hkeep; [ | constructor ].
    intros st' s H. unfold chunk_step.
    destruct (chunk_size config <=? _)%Z; cbn [chunks]; [ | exact H ].
    apply Forall_app. split; [ exact H | ].
    constructor; [ apply new_chunk_fresh | constructor ]. }
  destruct (window st); [ exact Hst | ].
  apply Forall_app. split; [ exact Hst | ].
  constructor; [ apply new_chunk_fresh | constructor ].
Qed.

End ChunkLoopFacts.

(* ------------------------------------------------------------------ *)
(** * Further properties of the safety filter *)

Section SafetyMore.
Import PyStr Safety.

Lemma contains_cons (sub : string) (c : ascii) (s : string) :
  contains sub (String c s) = (prefix sub (String c s) || contains sub s)%bool.
Proof. reflexivity. Qed.

Lemma sub_ignorecase_absent (pat repl s : string) :
  contains (lower pat) (lower s) = false -> sub_ignorecase pat repl s = s.
Proof.
  unfold sub_ignorecase. induction s as [| c s IH]; [ reflexivity | ].
  cbn [lower]. rewrite contains_cons. intros H.
  apply orb_false_iff in H. destruct H as [Hp Hc].
  cbn [sub_ignorecase_from lower]. rewrite Hp, (IH Hc). reflexivity.
Qed.

(** X6.  A sentence in which no blocked term and no jargon term occurs, in any
    letter case, passes the filter unchanged. *)
Theorem enforce_safety_clean (text : string) :
  (forall term, In term BLOCKED_TERMS -> contains term (lower text) = false) ->
  (forall jargon, In jargon (map fst JARGON_MAP) -> contains jargon (lower text) = false) ->
  enforce_safety text = text.
Proof.
  intros Hblocked Hjargon. unfold enforce_safety, BLOCKED_TERMS, JARGON_MAP.
  cbn [fold_left fst snd]. unfold block_term.
  rewrite !Hblocked by (cbn; auto).
  rewrite (sub_ignorecase_absent "non-stationary diffusion")
    by (apply Hjargon; cbn; auto).
  rewrite (sub_ignorecase_absent "anthropogenic") by (apply Hjargon; cbn; auto).
  reflexivity.
Qed.

Lemma enforce_safety_clean_witness :
  enforce_safety "The model converges in ten steps."
  = "The model converges in ten steps.".
Proof.
  apply enforce_safety_clean.
  - intros term [<- | [<- | [<- | []]]]; reflexivity.
  - intros jargon [<- | [<- | []]]; reflexivity.
Defined.

End SafetyMore.

(* ------------------------------------------------------------------ *)
(** * Further properties of the vector store and of the retriever *)

Section SearchMore.
Import PyList Types VectorStore.
Context `{FK : FloatKernel}.

Hypothesis Htotal : leb_total.
Hypothesis Htrans : leb_trans.

(** A ranking whose pairs are rows of the score table names no row
    twice. *)
Lemma ranked_NoDup (scores : list Score) (l : list (nat * Score)) :
  ranked l ->
  Forall (fun z => fst z < length scores /\ nth_error scores (fst z) = Some (snd z)) l ->
  NoDup (map fst l).
Proof.
  unfold ranked. induction 1 as [| x l Hl IH Hx]; intros Hrows; cbn [map];
    constructor.
  - inversion Hrows as [| ? ? [_ Hsx] Hrest]; subst.
    rewrite in_map_iff. intros (y & Hfst & Hy).
    rewrite Forall_forall in Hx, Hrest.
    destruct (Hrest y Hy) as [_ Hsy]. destruct (Hx y Hy) as [_ Hlt].
    rewrite Hfst, Hsx in Hsy. injection Hsy as Hs.
    assert (Hrefl : score_leb (snd x) (snd y) = true).
    { rewrite <- Hs. destruct (Htotal (snd x) (snd x)); assumption. }
    specialize (Hlt Hrefl). lia.
  - inversion Hrows; subst. apply IH. assumption.
Qed.

Lemma best_idx_length (scores : list Score) (k : Z) :
  Z.of_nat (length (best_idx scores k))
  = if (0 <? k)%Z then Z.min k (Z.of_nat (length scores))
    else (Z.of_nat (length scores) - Z.min (- k) (Z.of_nat (length scores)))%Z.
Proof.
  destruct (argsort_spec Htotal Htrans scores) as (_ & _ & Hlen).
  unfold best_idx, slice_last. rewrite length_rev, length_skipn, Hlen.
  destruct (0 <? k)%Z eqn:Hpos.
  - apply Z.ltb_lt in Hpos. lia.
  - apply Z.ltb_ge in Hpos. lia.
Qed.


End SearchMore.

Section RetrieverMore.
Import PyList Types VectorStore Retriever.
Context `{FK : FloatKernel} `{EB : !EmbeddingBackend}.

Lemma add_all_from (pairs : list (RetrievedChunk * Embedding)) (st : VectorStore) :
  let st' :=
    fold_left (fun st ce => add st (with_embedding (fst ce) (snd ce)) (snd ce))
              pairs st in
  chunks st'
  = (chunks st ++ map (fun ce => with_embedding (fst ce) (snd ce)) pairs)%list
  /\ embeddings st' = (embeddings st ++ map snd pairs)%list.
Proof.
  cbv zeta. revert st. induction pairs as [| ce pairs IH]; intros st; cbn [fold_left map].
  - rewrite !app_nil_r. split; reflexivity.
  - destruct (IH (add st (with_embedding (fst ce) (snd ce)) (snd ce))) as [Hc He].
    rewrite Hc, He. unfold add. cbn [chunks embeddings].
    rewrite <- !app_assoc. split; reflexivity.
Qed.

Lemma map_fst_combine {A B C : Type} (f : A -> C) (l : list A) (l' : list B) :
  map (fun p => f (fst p)) (combine l l') = firstn (length l') (map f l).
Proof.
  revert l'. induction l as [| x l IH]; intros [| y l']; cbn; try reflexivity.
  rewrite IH. reflexivity.
Qed.

Lemma map_snd_combine {A B C : Type} (g : B -> C) (l : list A) (l' : list B) :
  map (fun p => g (snd p)) (combine l l') = firstn (length l) (map g l').
Proof.
  revert l'. induction l as [| x l IH]; intros [| y l']; cbn; try reflexivity.
  rewrite IH. reflexivity.
Qed.

(** X8.  [from_chunks] when the backend answers: the store holds the chunks in
    their order, each with the embedding of its text back-filled, up to the
    shorter of the two lists (the surplus of the longer one is dropped
    without an error); ids, texts and pages are those of the input. *)
Theorem from_chunks_store (cs : list RetrievedChunk) (es : list Embedding) :
  embed (map rc_text cs) = Some es ->
  exists r,
    from_chunks cs = Ok r
    /\ wf_store (store r)
    /\ length (chunks (store r)) = min (length cs) (length es)
    /\ embeddings (store r) = firstn (length cs) es
    /\ map rc_chunk_id (chunks (store r)) = firstn (length es) (map rc_chunk_id cs)
    /\ map rc_text (chunks (store r)) = firstn (length es) (map rc_text cs)
    /\ map rc_page (chunks (store r)) = firstn (length es) (map rc_page cs)
    /\ map rc_embedding (chunks (store r))
       = firstn (length cs) (map (fun e => Some (tolist e)) es).
Proof.
  intros Hembed. unfold from_chunks. rewrite Hembed.
  eexists. split; [ reflexivity | ]. cbn [store].
  destruct (add_all_from (combine cs es) empty) as [Hc He].
  unfold add_all. rewrite Hc, He. cbn [empty chunks embeddings app].
  split; [ unfold wf_store; rewrite Hc, He; cbn [empty chunks embeddings app];
           rewrite !length_map; reflexivity | ].
  rewrite length_map, length_combine, !map_map.
  split; [ reflexivity | ].
  split; [ exact (eq_trans (map_snd_combine (fun e => e) cs es)
                           (f_equal (firstn (length cs)) (map_id es))) | ].
  split; [ exact (map_fst_combine rc_chunk_id cs es) | ].
  split; [ exact (map_fst_combine rc_text cs es) | ].
  split; [ exact (map_fst_combine rc_page cs es) | ].
  exact (map_snd_combine (fun e => Some (tolist e)) cs es).
Qed.

End RetrieverMore.

(* ------------------------------------------------------------------ *)
(** * Further properties of the two generation strategies *)

Section RuleBasedMore.
Import PyStr PyList Types Generator.
Context `{FK : FloatKernel}.

Lemma nth_seq_firstn {A : Type} (d : A) (b : nat) (l : list A) :
  map (fun i => nth i l d) (seq 0 (min b (length l))) = firstn b l.
Proof.
  revert b. induction l as [| x l IH]; intros b.
  - cbn [length]. rewrite Nat.min_0_r. destruct b; reflexivity.
  - destruct b as [| b]; [ reflexivity | ].
    cbn [length]. rewrite <- Nat.succ_min_distr. cbn [seq map nth firstn].
    rewrite <- seq_shift, map_map. cbn [nth]. rewrite IH. reflexivity.
Qed.

Lemma firstn_firstn_le {A : Type} (a b : nat) (l : list A) :
  a <= b -> firstn a (firstn b l) = firstn a l.
Proof. intros H. rewrite firstn_firstn. f_equal. lia. Qed.

Lemma budgets_ordered (d : Duration) : SLIDE_BUDGET d <= SCRIPT_SENTENCES d.
Proof. destruct d; cbn; lia. Qed.

(** X9.  The sections of a rule-based output line up: there are [min budget n]
    slides for [n] sentences, slide [i] cites sentence [i], the notes (when
    enabled) cite slide by slide what the slides cite, and so do the first
    script blocks, the script being the first [min script_budget n]
    sentences; the tweets (when enabled) are [min (2 * budget) n] and the
    LinkedIn summary is one block. *)
Theorem rule_based_sections_aligned (instruction : string)
    (retrievals : list RetrievalResult) (config : GenerationConfig)
    (audience : AudienceProfile) :
  let sentences := collect_sentences retrievals in
  let out := rule_based_generate_outputs instruction retrievals config audience in
  length (slides out) = min (SLIDE_BUDGET (duration config)) (length sentences)
  /\ map provenance (slides out)
     = map provenance (firstn (SLIDE_BUDGET (duration config)) sentences)
  /\ length (script out) = min (SCRIPT_SENTENCES (duration config)) (length sentences)
  /\ map provenance (firstn (length (slides out)) (script out))
     = map provenance (slides out)
  /\ notes out
     = (if include_speaker_notes config
        then map (note_of sentences) (seq 0 (length (slides out))) else [])
  /\ (include_speaker_notes config = true ->
      map provenance (notes out) = map provenance (slides out))
  /\ length (tweets out)
     = (if include_tweets config
        then min (SLIDE_BUDGET (duration config) * 2) (length sentences) else 0)
  /\ length (linkedin_summaries out) = (if include_linkedin config then 1 else 0).
Proof.
  cbv zeta. unfold rule_based_generate_outputs.
  cbn [slides script notes tweets linkedin_summaries].
  set (sentences := collect_sentences retrievals).
  set (b := SLIDE_BUDGET (duration config)).
  assert (Hslides : map provenance
                      (map (fun idx => _apply_style (sentence_at sentences idx)
                                                    (style audience) true (idx + 1))
                           (seq 0 (min b (length sentences))))
                    = map provenance (firstn b sentences)).
  { rewrite map_map. cbn [_apply_style provenance].
    rewrite <- (nth_seq_firstn empty_block b sentences), map_map. reflexivity. }
  rewrite length_map, length_seq, length_firstn.
  split; [ reflexivity | ]. split; [ exact Hslides | ]. split; [ reflexivity | ].
  split.
  { rewrite Hslides, firstn_firstn_le.
    - rewrite <- (firstn_firstn_le _ b) by apply Nat.le_min_l.
      rewrite <- length_firstn at 1. rewrite firstn_all. reflexivity.
    - pose proof (budgets_ordered (duration config)). fold b in H. lia. }
  split; [ reflexivity | ]. split.
  { intros ->. rewrite !map_map. reflexivity. }
  split.
  - destruct (include_tweets config); [ | reflexivity ].
    rewrite length_map, length_firstn. reflexivity.
  - destruct (include_linkedin config); reflexivity.
Qed.

Lemma take_length (n : nat) (s : string) : String.length (take n s) <= n.
Proof.
  unfold take. revert s. induction n as [| n IH]; intros s.
  - destruct s; cbn; lia.
  - destruct s as [| c s]; cbn [substring String.length]; [ lia | ].
    specialize (IH s). lia.
Qed.

(** X10.  No tweet is longer than 260 characters and no LinkedIn summary longer
    than 900. *)
Theorem rule_based_length_limits (instruction : string)
    (retrievals : list RetrievalResult) (config : GenerationConfig)
    (audience : AudienceProfile) :
  let out := rule_based_generate_outputs instruction retrievals config audience in
  Forall (fun b => String.length (text b) <= 260) (tweets out)
  /\ Forall (fun b => String.length (text b) <= 900) (linkedin_summaries out).
Proof.
  cbv zeta. unfold rule_based_generate_outputs. cbn [tweets linkedin_summaries].
  split.
  - destruct (include_tweets config); [ | constructor ].
    apply Forall_forall. intros b Hb. apply in_map_iff in Hb.
    destruct Hb as (s & <- & _). apply take_length.
  - destruct (include_linkedin config); [ | constructor ].
    constructor; [ apply take_length | constructor ].
Qed.

End RuleBasedMore.

Section ModelBackedMore.
Import PyStr PyList Types Generator Vocabulary.
Context `{FK : FloatKernel} `{LM : LanguageModel} `{RT : !PyRuntime}.

(** X11.  A decoded value that is not an object is not recovered by the
    fallback: the first [data.get] raises [AttributeError]. *)
Theorem llm_non_object_raises (instruction : string)
    (retrievals : list RetrievalResult) (config : GenerationConfig)
    (audience : AudienceProfile) (raw : string) (data : Json) :
  lm_generate (llm_prompt instruction retrievals config audience) = Some raw ->
  json_loads raw = Some data ->
  (forall fields, data <> JObj fields) ->
  llm_generate_outputs instruction retrievals config audience
  = inl (PyExn AttributeError).
Proof.
  intros Hraw Hdata Hobj. unfold llm_generate_outputs. rewrite Hraw, Hdata.
  unfold llm_outputs_of_json, _blocks.
  destruct data; try reflexivity. exfalso. exact (Hobj fields eq_refl).
Qed.

Lemma traverse_bare (texts : list string) :
  traverse block_of_json (map JStr texts) = inr (map bare texts).
Proof.
  induction texts as [| t texts IH]; [ reflexivity | ].
  cbn [map traverse block_of_json]. rewrite IH. reflexivity.
Qed.

Lemma _blocks_bare (fields : list (string * Json)) (key : string)
    (texts : list string) :
  dict_get fields key (JArr []) = JArr (map JStr texts) ->
  _blocks (JObj fields) key = inr (map bare texts).
Proof.
  intros H. unfold _blocks. cbn [json_get]. rewrite H. cbn [iterate].
  apply traverse_bare.
Qed.

(** X12.  When the model answers with an object whose five keys are absent or
    hold arrays of plain strings, the output takes the strings as they are:
    one block per string, none with a provenance, a missing key giving an
    empty section, and the metadata tagged with the generator. *)
Theorem llm_bare_strings (instruction : string)
    (retrievals : list RetrievalResult) (config : GenerationConfig)
    (audience : AudienceProfile) (raw : string) (fields : list (string * Json))
    (texts : string -> list string) :
  lm_generate (llm_prompt instruction retrievals config audience) = Some raw ->
  json_loads raw = Some (JObj fields) ->
  (forall key, In key ["slides"; "script"; "notes"; "tweets"; "linkedin"] ->
               dict_get fields key (JArr []) = JArr (map JStr (texts key))) ->
  llm_generate_outputs instruction retrievals config audience
  = inr {| slides := map bare (texts "slides");
           script := map bare (texts "script");
           notes := map bare (texts "notes");
           tweets := map bare (texts "tweets");
           linkedin_summaries := map bare (texts "linkedin");
           metadata :=
             (rule_metadata instruction config audience ++ [("generator", "llm")])%list |}.
Proof.
  intros Hraw Hdata Hkeys. unfold llm_generate_outputs. rewrite Hraw, Hdata.
  unfold llm_outputs_of_json.
  rewrite !(_blocks_bare fields _ (texts _)) by (apply Hkeys; cbn; auto 6).
  reflexivity.
Qed.

Lemma dict_get_absent (fields : list (string * Json)) (key : string) (default : Json) :
  ~ In key (map fst fields) -> dict_get fields key default = default.
Proof.
  induction fields as [| [k v] fields IH]; intros Hno; cbn [dict_get]; [ reflexivity | ].
  destruct (String.eqb_spec k key) as [-> | Hne].
  - exfalso. apply Hno. left. reflexivity.
  - apply IH. intros Hin. apply Hno. right. exact Hin.
Qed.

(** X13.  The metadata of an output of the model-backed strategy carries the
    generator tag exactly when the answer of the model decoded. *)
Theorem llm_generator_tag (instruction : string)
    (retrievals : list RetrievalResult) (config : GenerationConfig)
    (audience : AudienceProfile) (raw : string) (out : GenerationOutput) :
  lm_generate (llm_prompt instruction retrievals config audience) = Some raw ->
  llm_generate_outputs instruction retrievals config audience = inr out ->
  (In ("generator", "llm") (metadata out) <-> json_loads raw <> None).
Proof.
  intros Hraw. unfold llm_generate_outputs. rewrite Hraw.
  destruct (json_loads raw) as [data |].
  - unfold llm_outputs_of_json. intros H.
    destruct (_blocks data "slides"); [ discriminate | ].
    destruct (_blocks data "script"); [ discriminate | ].
    destruct (_blocks data "notes"); [ discriminate | ].
    destruct (_blocks data "tweets"); [ discriminate | ].
    destruct (_blocks data "linkedin"); [ discriminate | ].
    injection H as <-. split; [ discriminate | intros _ ].
    cbn. auto 10.
  - intros H. injection H as <-. split; [ | congruence ].
    unfold rule_based_generate_outputs, rule_metadata. cbn [metadata In].
    intros [H | [H | [H | [H | []]]]]; discriminate.
Qed.

End ModelBackedMore.

(* ------------------------------------------------------------------ *)
(** * Further properties of the session *)

Section RevisionFrame.
Import PyStr PyList Types Pipeline Vocabulary.
Context `{FK : FloatKernel}.

Lemma nth_error_set_nth_eq {A : Type} (l : list A) (i : nat) (x : A) :
  i < length l -> nth_error (set_nth i x l) i = Some x.
Proof.
  revert i. induction l as [| y l IH]; intros [| i] H; cbn in *; try lia.
  - reflexivity.
  - apply IH. lia.
Qed.

Lemma nth_error_set_nth_neq {A : Type} (l : list A) (i j : nat) (x : A) :
  j <> i -> nth_error (set_nth i x l) j = nth_error l j.
Proof.
  revert i j. induction l as [| y l IH]; intros [| i] [| j] H; cbn; try reflexivity.
  - contradiction.
  - apply IH. lia.
Qed.

Lemma with_text_provenance (i : nat) (t : string) (l : list ContentBlock) :
  map provenance (with_text i t l) = map provenance l.
Proof.
  unfold with_text. destruct (nth_error l i) as [b |] eqn:Hb; [ | reflexivity ].
  revert i Hb. induction l as [| y l IH]; intros [| i] Hb; cbn in *; try discriminate.
  - injection Hb as ->. reflexivity.
  - rewrite (IH _ Hb). reflexivity.
Qed.

Lemma with_text_other (i j : nat) (t : string) (l : list ContentBlock) :
  j <> i -> nth_error (with_text i t l) j = nth_error l j.
Proof.
  intros H. unfold with_text. destruct (nth_error l i); [ | reflexivity ].
  apply nth_error_set_nth_neq. exact H.
Qed.

Lemma with_text_target (i : nat) (t : string) (l : list ContentBlock) (b : ContentBlock) :
  nth_error l i = Some b ->
  nth_error (with_text i t l) i = Some {| text := t; provenance := provenance b |}.
Proof.
  intros Hb. unfold with_text. rewrite Hb.
  apply nth_error_set_nth_eq. apply nth_error_Some. congruence.
Qed.

(** The sections of an output after the assignment to one block. *)
Lemma section_blocks_set_block_text (output : GenerationOutput) (section s : string)
    (i : nat) (t : string) :
  section_blocks (set_block_text output section i t) s
  = if String.eqb section s
    then with_text i t (section_blocks output s)
    else section_blocks output s.
Proof.
  unfold section_blocks, section_map, set_block_text, with_text.
  cbn [slides script notes].
  destruct (String.eqb_spec s "slides") as [-> | H1]; [ reflexivity | ].
  destruct (String.eqb_spec s "script") as [-> | H2]; [ reflexivity | ].
  destruct (String.eqb_spec s "notes") as [-> | H3]; [ reflexivity | ].
  destruct (String.eqb section s); [ destruct i | ]; reflexivity.
Qed.

Lemma revise_section_effect (bot : SaralChatbot) (section : string) (index : Z)
    (directive : string) (now : Z)
    (a : address) (output : GenerationOutput) (blocks : list ContentBlock) :
  deref bot = Some (a, output) ->
  section_map output section = Some blocks ->
  (0 <= index < Z.of_nat (length blocks))%Z ->
  exists change bot' output',
    revise_section bot section index directive now = (Ok change, bot')
    /\ deref bot' = Some (a, output')
    /\ option_map text (nth_error blocks (Z.to_nat index)) = Some (before change)
    /\ after change = _apply_directive (before change) directive
    /\ target_section change = section ++ "[" ++ str_Z index ++ "]"
    /\ option_map text (nth_error (section_blocks output' section) (Z.to_nat index))
       = Some (after change)
    /\ (forall s, map provenance (section_blocks output' s)
                  = map provenance (section_blocks output s))
    /\ (forall s j, (s <> section \/ j <> Z.to_nat index) ->
                    nth_error (section_blocks output' s) j
                    = nth_error (section_blocks output s) j)
    /\ tweets output' = tweets output
    /\ linkedin_summaries output' = linkedin_summaries output
    /\ metadata output' = metadata output
    /\ length (objects bot') = length (objects bot)
    /\ (forall a', a' <> a -> nth_error (objects bot') a' = nth_error (objects bot) a').
Proof.
  intros Hderef Hsec [H0 H1].
  assert (Hcur : current_output bot = Some a /\ nth_error (objects bot) a = Some output).
  { unfold deref in Hderef. destruct (current_output bot) as [a0 |]; [ | discriminate ].
    destruct (nth_error (objects bot) a0) eqn:E; [ | discriminate ].
    injection Hderef as <- <-. split; [ reflexivity | exact E ]. }
  destruct Hcur as [Hcur Hobj].
  assert (Ha : a < length (objects bot)) by (apply nth_error_Some; congruence).
  assert (Hi : Z.to_nat index < length blocks) by lia.
  destruct (nth_error blocks (Z.to_nat index)) as [b |] eqn:Hb;
    [ | apply nth_error_None in Hb; lia ].
  assert (Hblocks : section_blocks output section = blocks)
    by (unfold section_blocks; rewrite Hsec; reflexivity).
  unfold revise_section. rewrite Hderef, Hsec.
  apply Z.leb_le in H0. apply Z.ltb_lt in H1. rewrite H0, H1. cbn [andb].
  rewrite (nth_error_nth _ _ Generator.empty_block Hb).
  set (new_text := _apply_directive (text b) directive).
  set (output' := set_block_text output section (Z.to_nat index) new_text).
  eexists. eexists. exists output'.
  split; [ reflexivity | ].
  cbn [before after target_section].
  split.
  { unfold deref, _log_turn, store_output. cbn [current_output objects].
    rewrite Hcur, (nth_error_set_nth_eq _ _ _ Ha). reflexivity. }
  split; [ reflexivity | ]. split; [ reflexivity | ]. split; [ reflexivity | ].
  split.
  { unfold output'. rewrite section_blocks_set_block_text, String.eqb_refl, Hblocks.
    rewrite (with_text_target _ _ _ _ Hb). reflexivity. }
  split.
  { intros s. unfold output'. rewrite section_blocks_set_block_text.
    destruct (String.eqb section s); [ apply with_text_provenance | reflexivity ]. }
  split.
  { intros s j Hother. unfold output'. rewrite section_blocks_set_block_text.
    destruct (String.eqb_spec section s) as [<- | Hne]; [ | reflexivity ].
    apply with_text_other. destruct Hother as [H | H]; [ congruence | exact H ]. }
  split; [ reflexivity | ]. split; [ reflexivity | ]. split; [ reflexivity | ].
  unfold _log_turn, store_output. cbn [objects].
  split; [ apply set_nth_length | ].
  intros a' Hne. apply nth_error_set_nth_neq. exact Hne.
Qed.

(** X14.  A revision that goes through changes the text of the target block and
    nothing else: the record holds the old and the new text and names the
    target; every section keeps its blocks' provenance, and every block
    other than the target is as before; tweets, LinkedIn summary and
    metadata are untouched, and so is every other stored output. *)
Theorem revise_section_frame (bot : SaralChatbot) (section : string) (index : Z)
    (directive : string) (now : Z)
    (a : address) (output : GenerationOutput) (blocks : list ContentBlock) :
  deref bot = Some (a, output) ->
  section_map output section = Some blocks ->
  (0 <= index < Z.of_nat (length blocks))%Z ->
  exists change bot' output',
    revise_section bot section index directive now = (Ok change, bot')
    /\ deref bot' = Some (a, output')
    /\ option_map text (nth_error blocks (Z.to_nat index)) = Some (before change)
    /\ after change = _apply_directive (before change) directive
    /\ target_section change = section ++ "[" ++ str_Z index ++ "]"
    /\ option_map text (nth_error (section_blocks output' section) (Z.to_nat index))
       = Some (after change)
    /\ (forall s, map provenance (section_blocks output' s)
                  = map provenance (section_blocks output s))
    /\ (forall s j, (s <> section \/ j <> Z.to_nat index) ->
                    nth_error (section_blocks output' s) j
                    = nth_error (section_blocks output s) j)
    /\ tweets output' = tweets output
    /\ linkedin_summaries output' = linkedin_summaries output
    /\ metadata output' = metadata output
    /\ length (objects bot') = length (objects bot)
    /\ (forall a', a' <> a -> nth_error (objects bot') a' = nth_error (objects bot) a').
Proof. exact (revise_section_effect bot section index directive now a output blocks). Qed.

Lemma revise_section_extends (bot : SaralChatbot) (section : string) (index : Z)
    (directive : string) (now : Z) :
  extends bot (snd (revise_section bot section index directive now))
          (if is_raise (fst (revise_section bot section index directive now))
           then 0 else 2).
Proof.
  assert (Hrefl : extends bot bot 0)
    by (exists []; rewrite app_nil_r; repeat split).
  unfold revise_section.
  destruct (deref bot) as [[a output] |]; [ | exact Hrefl ].
  destruct (section_map output section) as [blocks |]; [ | exact Hrefl ].
  destruct ((0 <=? index)%Z && (index <? Z.of_nat (length blocks))%Z)%bool;
    [ | exact Hrefl ].
  eexists.
  split; [ | split; [ cbn; rewrite <- app_assoc; reflexivity | split; reflexivity ] ].
  reflexivity.
Qed.

End RevisionFrame.

Section SessionLog.
Import PyStr PyList Types Pipeline Vocabulary.
Context `{FK : FloatKernel} `{EB : !EmbeddingBackend} `{LM : LanguageModel}
        `{RT : !Generator.PyRuntime} `{DL : DocumentLoader}.

Lemma extends_refl (bot : SaralChatbot) : extends bot bot 0.
Proof. exists []. rewrite app_nil_r. repeat split. Qed.

Lemma generate_effect (bot : SaralChatbot) (request : string)
    (audience : AudienceProfile) (config : GenerationConfig) (top_k : Z) :
  match generate bot request audience config top_k with
  | (inr output, bot') =>
      objects bot' = (objects bot ++ [output])%list
      /\ current_output bot' = Some (length (objects bot))
      /\ deref bot' = Some (length (objects bot), output)
      /\ turns (conversation bot')
         = (turns (conversation bot)
            ++ [ {| role := "user"; content := request;
                    output_snapshot := None; change_record := None |};
                 {| role := "assistant"; content := _summarise_output output;
                    output_snapshot := current_output bot';
                    change_record := None |} ])%list
      /\ retriever bot' = retriever bot
      /\ retriever bot <> None
  | (inl e, bot') =>
      bot' = bot /\ (retriever bot = None -> e = Generator.PyExn RuntimeError)
  end.
Proof.
  unfold generate. destruct (retriever bot) as [r |] eqn:Hr.
  2:{ split; [ reflexivity | intros _; reflexivity ]. }
  destruct (Retriever.query r request top_k) as [retrievals | e].
  2:{ split; [ reflexivity | discriminate ]. }
  destruct (generator_outputs bot request retrievals config audience) as [e | output].
  { split; [ reflexivity | discriminate ]. }
  unfold _log_turn, set_current.
  cbn [objects current_output conversation turns retriever].
  split; [ reflexivity | ]. split; [ reflexivity | ]. split.
  - unfold deref. cbn [current_output objects].
    rewrite nth_error_app2 by lia. rewrite Nat.sub_diag. reflexivity.
  - split; [ rewrite <- app_assoc; reflexivity | ]. split; [ exact Hr | discriminate ].
Qed.


Lemma log_growth (bot : SaralChatbot) :
  (forall path chunk_config,
      extends bot (snd (ingest bot path chunk_config)) 0)
  /\ (forall request audience config top_k,
         extends bot (snd (generate bot request audience config top_k))
                 (match fst (generate bot request audience config top_k) with
                  | inr _ => 2
                  | inl _ => 0
                  end))
  /\ (forall section index directive now,
         extends bot (snd (revise_section bot section index directive now))
                 (if is_raise (fst (revise_section bot section index directive now))
                  then 0 else 2)).
Proof.
  split; [ | split ].
  - intros path chunk_config. unfold ingest.
    destruct (load_document path) as [[full_text page_map] |]; [ | apply extends_refl ].
    destruct (Retriever.from_chunks _); [ | apply extends_refl ].
    exists []. cbn. rewrite app_nil_r. repeat split.
  - intros request audience config top_k. unfold generate.
    destruct (retriever bot) as [r |]; [ | apply extends_refl ].
    destruct (Retriever.query r request top_k) as [retrievals | e];
      [ | apply extends_refl ].
    destruct (generator_outputs bot request retrievals config audience) as [e | output];
      [ apply extends_refl | ].
    eexists.
    split; [ | split; [ cbn; rewrite <- app_assoc; reflexivity | split; reflexivity ] ].
    reflexivity.
  - intros section index directive now. apply revise_section_extends.
Qed.


(** X17.  The snapshot logged by [generate] is the output object itself, not a
    copy: after a revision the address held by that turn shows the revised
    text. *)
Theorem revision_shows_in_snapshot (bot bot1 bot2 : SaralChatbot) (request : string)
    (audience : AudienceProfile) (config : GenerationConfig) (top_k : Z)
    (output : GenerationOutput) (section : string) (index : Z) (directive : string)
    (now : Z) (change : ChangeRecord) :
  generate bot request audience config top_k = (inr output, bot1) ->
  revise_section bot1 section index directive now = (Ok change, bot2) ->
  exists turn a revised,
    In turn (turns (conversation bot2))
    /\ content turn = _summarise_output output
    /\ output_snapshot turn = Some a
    /\ nth_error (objects bot2) a = Some revised
    /\ option_map text (nth_error (section_blocks revised section) (Z.to_nat index))
       = Some (after change).
Proof.
  intros Hgen Hrev.
  pose proof (generate_effect bot request audience config top_k) as Hout.
  rewrite Hgen in Hout. destruct Hout as (_ & Hcur & Hderef & Hturns & _).
  unfold revise_section in Hrev. rewrite Hderef in Hrev.
  destruct (section_map output section) as [blocks |] eqn:Hsec; [ | discriminate ].
  destruct ((0 <=? index)%Z && (index <? Z.of_nat (length blocks))%Z)%bool eqn:Hin;
    [ | discriminate ].
  apply andb_true_iff in Hin. destruct Hin as [H0 H1].
  apply Z.leb_le in H0. apply Z.ltb_lt in H1.
  destruct (revise_section_effect bot1 section index directive now _ _ _
              Hderef Hsec (conj H0 H1))
    as (change' & bot' & revised & Hrev' & Hderef' & _ & _ & _ & Htext & _).
  assert (Hrev2 : revise_section bot1 section index directive now = (Ok change, bot2)).
  { unfold revise_section. rewrite Hderef, Hsec.
    apply Z.leb_le in H0. apply Z.ltb_lt in H1. rewrite H0, H1. exact Hrev. }
  rewrite Hrev2 in Hrev'. injection Hrev' as <- <-.
  pose proof (revise_section_extends bot1 section index directive now) as Hlog.
  rewrite Hrev2 in Hlog.
  destruct Hlog as (suffix & _ & Hturns2 & _). cbn [snd] in Hturns2.
  exists {| role := "assistant"; content := _summarise_output output;
            output_snapshot := current_output bot1; change_record := None |}.
  exists (length (objects bot)), revised.
  split.
  { rewrite Hturns2, Hturns. apply in_or_app. left. apply in_or_app. right.
    right. left. reflexivity. }
  split; [ reflexivity | ]. split; [ exact Hcur | ].
  split; [ | exact Htext ].
  unfold deref in Hderef'. destruct (current_output bot2) as [a2 |]; [ | discriminate ].
  destruct (nth_error (objects bot2) a2) eqn:E; [ | discriminate ].
  injection Hderef' as -> ->. exact E.
Qed.

End SessionLog.

(* ------------------------------------------------------------------ *)
(** * Properties of the command parser *)

Section ParserFacts.
Import PyStr ChatDriver.

Lemma split_lstrip (s : string) : split (lstrip s) = split s.
Proof.
  induction s as [| c s IH]; [ reflexivity | ].
  cbn [lstrip]. destruct (is_space c) eqn:Hc; [ | reflexivity ].
  rewrite IH, (split_unfold c), Hc. reflexivity.
Qed.

Lemma split_rstrip (s : string) : split (rstrip s) = split s.
Proof.
  induction s as [| c s IH]; [ reflexivity | ].
  rewrite rstrip_cons. destruct (rstrip s) as [| c' r] eqn:Hr.
  - cbn [split] in IH. destruct (is_space c) eqn:Hc.
    + rewrite split_unfold, Hc. exact IH.
    + rewrite !split_unfold, Hc. destruct s as [| c2 s2]; [ reflexivity | ].
      rewrite <- IH. destruct (is_space c2); reflexivity.
  - destruct (rstrip_head _ _ _ Hr) as (t' & ->).
    rewrite !(split_unfold c). destruct (is_space c); [ exact IH | ].
    rewrite IH. reflexivity.
Qed.

Lemma split_strip (s : string) : split (strip s) = split s.
Proof. unfold strip. rewrite split_rstrip. apply split_lstrip. Qed.

(** [split] undoes [" ".join] on words. *)
Lemma split_join (l : list string) : Forall token l -> split (join " " l) = l.
Proof.
  induction 1 as [| t l Ht Hl IH]; [ reflexivity | ].
  destruct l as [| t2 l].
  - cbn [join]. replace t with (t ++ EmptyString) at 1.
    + rewrite split_token_app; [ reflexivity | exact Ht | left; reflexivity ].
    + clear. induction t as [| c u IHu]; cbn [append]; [ | rewrite IHu ]; reflexivity.
  - rewrite join_cons by discriminate. rewrite split_token_app.
    + cbn [append]. rewrite (split_unfold " "%char).
      change (is_space " "%char) with true. cbn iota. rewrite IH. reflexivity.
    + exact Ht.
    + right. exists " "%char. eexists. split; reflexivity.
Qed.

Lemma int_digits_uint (d : Decimal.uint) (acc : nat) :
  int_digits acc false (NilEmpty.string_of_uint d) = Some (Nat.of_uint_acc d acc).
Proof.
  revert acc. induction d; intros acc; cbn [NilEmpty.string_of_uint int_digits];
    [ reflexivity | .. ];
    change (is_digit _) with true; cbn iota; rewrite IHd;
    cbn [Nat.of_uint_acc]; rewrite Nat.tail_mul_spec;
    f_equal; f_equal; unfold digit_value; cbn; lia.
Qed.

Lemma int_digits_uint_start (d : Decimal.uint) :
  d <> Decimal.Nil ->
  int_digits 0 true (NilEmpty.string_of_uint d) = Some (Nat.of_uint d).
Proof.
  intros Hd. unfold Nat.of_uint. destruct d; [ contradiction | .. ];
    cbn [NilEmpty.string_of_uint int_digits];
    change (is_digit _) with true; cbn iota; rewrite int_digits_uint;
    cbn [Nat.of_uint_acc]; rewrite Nat.tail_mul_spec;
    f_equal; f_equal; unfold digit_value; cbn; lia.
Qed.

Lemma to_uint_nonnil (n : nat) : Nat.to_uint n <> Decimal.Nil.
Proof.
  rewrite <- (DecimalNat.Unsigned.of_to n) at 1.
  rewrite DecimalNat.Unsigned.to_of. apply DecimalFacts.unorm_nonnil.
Qed.

Lemma uint_digits (d : Decimal.uint) :
  no_space (NilEmpty.string_of_uint d) = true
  /\ match NilEmpty.string_of_uint d with
     | EmptyString => True
     | String c _ => Ascii.eqb c "+"%char = false /\ Ascii.eqb c "-"%char = false
     end.
Proof.
  split.
  - induction d; cbn [NilEmpty.string_of_uint no_space]; [ reflexivity | .. ];
      rewrite IHd; reflexivity.
  - destruct d; cbn; auto.
Qed.

Lemma str_nat_token (n : nat) : token (str_nat n).
Proof.
  unfold token, str_nat. split; [ | apply uint_digits ].
  pose proof (to_uint_nonnil n) as H. destruct (Nat.to_uint n); [ contradiction | .. ];
    discriminate.
Qed.

Lemma lstrip_token (t : string) : token t -> lstrip t = t.
Proof.
  destruct t as [| c t]; [ reflexivity | ]. intros Ht.
  apply token_cons in Ht. destruct Ht as [Hc _]. cbn [lstrip]. rewrite Hc. reflexivity.
Qed.

Lemma rstrip_no_space (t : string) : no_space t = true -> rstrip t = t.
Proof.
  induction t as [| c t IH]; [ reflexivity | ].
  cbn [no_space]. rewrite andb_true_iff, negb_true_iff. intros [Hc Ht].
  rewrite rstrip_cons, (IH Ht), Hc. destruct t; reflexivity.
Qed.

Lemma strip_token (t : string) : token t -> strip t = t.
Proof.
  intros Ht. unfold strip. rewrite (lstrip_token _ Ht).
  apply rstrip_no_space. apply Ht.
Qed.

(** [int] reads back what [str] writes for a natural number. *)
Lemma py_int_str_nat (n : nat) : py_int (str_nat n) = Some (Z.of_nat n).
Proof.
  unfold py_int. rewrite (strip_token _ (str_nat_token n)). unfold str_nat.
  pose proof (int_digits_uint_start _ (to_uint_nonnil n)) as Hd.
  rewrite DecimalNat.Unsigned.of_to in Hd.
  destruct (uint_digits (Nat.to_uint n)) as [_ Hsign].
  destruct (NilEmpty.string_of_uint (Nat.to_uint n)) as [| c r];
    [ discriminate | ].
  destruct Hsign as [-> ->]. rewrite Hd. reflexivity.
Qed.

(** X18.  A well-formed command parses to its parts: the section in lower case,
    the typed one-based number turned into a zero-based index, and the
    words of the directive joined by single spaces.  The keyword is
    accepted in any letter case. *)
Theorem _parse_revision_command (keyword section : string) (number : nat)
    (words : list string) :
  lower keyword = "revise" -> token keyword ->
  token section -> Forall token words -> words <> [] ->
  _parse_revision
    (join " " (keyword :: section :: str_nat number :: words))
  = Some (lower section, (Z.of_nat number - 1)%Z, join " " words).
Proof.
  intros Hkey Hkt Hsec Hwords Hne. unfold _parse_revision.
  rewrite split_strip, split_join.
  2:{ repeat (constructor; [ assumption || apply str_nat_token | ]). exact Hwords. }
  destruct words as [| w ws]; [ contradiction | ].
  rewrite Hkey, String.eqb_refl, py_int_str_nat. reflexivity.
Qed.

(** Anything with fewer than four words, or whose first word is not the
    keyword, is no command. *)
Theorem _parse_revision_rejects (text : string) :
  length (split text) < 4 \/ lower (hd EmptyString (split text)) <> "revise" ->
  _parse_revision text = None.
Proof.
  unfold _parse_revision. rewrite split_strip.
  destruct (split text) as [| p0 [| p1 [| p2 [| p3 rest]]]]; cbn [length hd];
    intros [H | H]; try reflexivity; try lia.
  apply String.eqb_neq in H. rewrite H. reflexivity.
Qed.

End ParserFacts.

Section NegativeIndex.
Import PyStr PyList Types Pipeline.
Context `{FK : FloatKernel}.

(** X19.  A negative index is refused and the session is left alone: it is
    never read from the end of the section as a Python subscript would
    be.  With a current output and a known section the exception is
    [IndexError]. *)
Theorem revise_section_negative_index (bot : SaralChatbot) (section : string)
    (index : Z) (directive : string) (now : Z) :
  (index < 0)%Z ->
  is_raise (fst (revise_section bot section index directive now)) = true
  /\ snd (revise_section bot section index directive now) = bot
  /\ (forall a output,
        deref bot = Some (a, output) ->
        In section ["slides"; "script"; "notes"] ->
        fst (revise_section bot section index directive now) = Raise IndexError).
Proof.
  intros Hneg. unfold revise_section.
  assert (Hlt : (0 <=? index)%Z = false) by (apply Z.leb_gt; exact Hneg).
  destruct (deref bot) as [[a output] |].
  - destruct (section_map output section) as [blocks |] eqn:Hsec.
    + rewrite Hlt. cbn [andb fst snd is_raise].
      repeat split.
    + cbn [fst snd is_raise]. repeat split.
      intros a' output' H Hin. injection H as <- <-.
      apply (section_map_known output) in Hin. congruence.
  - cbn [fst snd is_raise]. repeat split. intros; discriminate.
Qed.

End NegativeIndex.

(* ------------------------------------------------------------------ *)
(** * Properties of the coverage metrics *)

Section MetricsFacts.
Import Types Generator Metrics.
Context `{FK : FloatKernel} `{FD : !FloatDivision}.

Lemma cited_count_all (blocks : list ContentBlock) :
  Forall (fun b => provenance b <> []) blocks -> cited_count blocks = length blocks.
Proof.
  unfold cited_count. induction 1 as [| b l Hb _ IH]; [ reflexivity | ].
  cbn [filter]. unfold is_cited at 1. destruct (provenance b); [ contradiction | ].
  cbn [length]. rewrite IH. reflexivity.
Qed.

(** X20.  Every slide, script block and note of a rule-based output counts as
    cited, so both coverage figures are the quotient of the number of
    blocks by itself (and [0.0] when there is no block). *)
Theorem rule_based_full_coverage (instruction : string)
    (retrievals : list RetrievalResult) (config : GenerationConfig)
    (audience : AudienceProfile) :
  let out := rule_based_generate_outputs instruction retrievals config audience in
  let blocks := (slides out ++ script out ++ notes out)%list in
  cited_count blocks = length blocks
  /\ citation_coverage out
     = match blocks with
       | [] => zero
       | _ => true_div (length blocks) (length blocks)
       end
  /\ provenance_coverage (script out)
     = match script out with
       | [] => zero
       | _ => true_div (length (script out)) (length (script out))
       end.
Proof.
  cbv zeta.
  set (out := rule_based_generate_outputs instruction retrievals config audience).
  assert (Hcited : forall b,
             In b (slides out ++ script out ++ notes out ++ tweets out)%list ->
             provenance b <> []).
  { intros b Hb. destruct (per_sentence_block _ _ _ _ _ Hb) as (s & Hs & ->).
    apply (sentence_cited _ _ Hs). }
  assert (Hall : Forall (fun b => provenance b <> [])
                        (slides out ++ script out ++ notes out)%list).
  { apply Forall_forall. intros b Hb. apply Hcited.
    rewrite !in_app_iff in Hb. rewrite !in_app_iff. tauto. }
  assert (Hscript : Forall (fun b => provenance b <> []) (script out)).
  { apply Forall_forall. intros b Hb. apply Hcited.
    rewrite !in_app_iff. tauto. }
  split; [ apply cited_count_all; exact Hall | ].
  unfold citation_coverage, provenance_coverage.
  rewrite (cited_count_all _ Hall), (cited_count_all _ Hscript).
  split; reflexivity.
Qed.

End MetricsFacts.

(* ------------------------------------------------------------------ *)
(** * Concrete runs of the further properties *)

Section MoreRuns.
Import PyStr Types Fixtures MoreFixtures Vocabulary.

Lemma chunk_text_no_overlap_partition_witness :
  exists groups,
    concat groups = Chunker.simple_sentence_split four_sentences
    /\ map rc_text (@Chunker.chunk_text int_kernel four_sentences [] no_overlap)
       = map (join " ") groups.
Proof.
  destruct (@chunk_text_no_overlap_partition int_kernel four_sentences [] no_overlap)
    as (groups & H1 & _ & H3).
  - cbn. lia.
  - exists groups. split; assumption.
Defined.


Lemma from_chunks_store_witness :
  exists r,
    @Retriever.from_chunks int_kernel length_backend two_chunks = Ok r
    /\ map rc_chunk_id (VectorStore.chunks (Retriever.store r)) = ["chunk_0"; "chunk_1"]
    /\ VectorStore.embeddings (Retriever.store r) = [[4%Z]; [4%Z]].
Proof.
  destruct (@from_chunks_store int_kernel length_backend two_chunks [[4%Z]; [4%Z]])
    as (r & H1 & _ & _ & H4 & H5 & _).
  - reflexivity.
  - exists r. split; [ exact H1 | split; [ exact H5 | exact H4 ] ].
Defined.

Lemma llm_non_object_raises_witness :
  @Generator.llm_generate_outputs int_kernel prose_model array_runtime
    "summarize" [ten_match] (config_of SHORT_30S) plain_audience
  = inl (Generator.PyExn AttributeError).
Proof.
  apply (@llm_non_object_raises int_kernel prose_model array_runtime
           "summarize" [ten_match] (config_of SHORT_30S) plain_audience
           "Sorry, here are some slides." (Generator.JArr [])).
  - reflexivity.
  - reflexivity.
  - intros fields. discriminate.
Defined.

Lemma llm_bare_strings_witness :
  @Generator.llm_generate_outputs int_kernel prose_model slide_runtime
    "summarize" [ten_match] (config_of SHORT_30S) plain_audience
  = inr {| slides := [bare "Only slide"]; script := []; notes := []; tweets := [];
           linkedin_summaries := [];
           metadata :=
             [ ("instruction", "summarize"); ("audience", "Policymakers");
               ("style", "plain"); ("duration", "30s"); ("generator", "llm") ] |}.
Proof.
  apply (@llm_bare_strings int_kernel prose_model slide_runtime
           "summarize" [ten_match] (config_of SHORT_30S) plain_audience
           "Sorry, here are some slides." slide_fields slide_texts).
  - reflexivity.
  - reflexivity.
  - intros key [<- | [<- | [<- | [<- | [<- | []]]]]]; reflexivity.
Defined.

Lemma llm_generator_tag_witness :
  In ("generator", "llm")
     (metadata (@Generator.rule_based_generate_outputs int_kernel "summarize"
                  [ten_match] (config_of SHORT_30S) plain_audience))
  <-> @Generator.json_loads int_kernel tiny_runtime "Sorry, here are some slides."
      <> None.
Proof.
  apply (@llm_generator_tag int_kernel prose_model tiny_runtime
           "summarize" [ten_match] (config_of SHORT_30S) plain_audience
           "Sorry, here are some slides.").
  - reflexivity.
  - reflexivity.
Defined.

Lemma revise_section_frame_witness :
  exists change bot' output',
    revise generated "slides" 0 "make it shorter" = (Ok change, bot')
    /\ Pipeline.deref bot' = Some (0, output')
    /\ after change = "Slide 1 - Plain-language take:..."
    /\ map provenance (Pipeline.section_blocks output' "slides")
       = map provenance (Pipeline.section_blocks first_output "slides")
    /\ tweets output' = tweets first_output.
Proof.
  destruct (@revise_section_frame int_kernel generated "slides" 0%Z
              "make it shorter" 0%Z 0 first_output (slides first_output))
    as (change & bot' & output' & H1 & H2 & H3 & H4 & _ & _ & H7 & _ & H9 & _).
  - vm_compute. reflexivity.
  - vm_compute. reflexivity.
  - vm_compute. split; [ discriminate | reflexivity ].
  - exists change, bot', output'.
    split; [ exact H1 | ]. split; [ exact H2 | ].
    split.
    { assert (Hb : before change = "Slide 1 - Plain-language take: One.")
        by (vm_compute in H3; injection H3 as H3; symmetry; exact H3).
      rewrite H4, Hb. vm_compute. reflexivity. }
    split; [ exact (H7 "slides") | exact H9 ].
Defined.

Lemma revision_shows_in_snapshot_witness :
  exists turn a revised,
    In turn (turns (Pipeline.conversation revised_session))
    /\ output_snapshot turn = Some a
    /\ nth_error (Pipeline.objects revised_session) a = Some revised
    /\ option_map text
         (nth_error (Pipeline.section_blocks revised "slides") (Z.to_nat 0))
       = Some "Slide 1 - Plain-language take:...".
Proof.
  destruct (@revision_shows_in_snapshot int_kernel length_backend prose_model
              tiny_runtime ingested generated revised_session "summarize"
              plain_audience (config_of SHORT_30S) 5%Z first_output "slides" 0%Z
              "make it shorter" 0%Z shorter_change)
    as (turn & a & revised & H1 & _ & H3 & H4 & H5).
  - vm_compute. reflexivity.
  - vm_compute. reflexivity.
  - exists turn, a, revised.
    split; [ exact H1 | ]. split; [ exact H3 | ]. split; [ exact H4 | ].
    rewrite H5. vm_compute. reflexivity.
Defined.

Lemma _parse_revision_command_witness :
  ChatDriver._parse_revision "Revise Slides 1 make it more visual"
  = Some ("slides", 0%Z, "make it more visual").
Proof.
  apply (_parse_revision_command "Revise" "Slides" 1 ["make"; "it"; "more"; "visual"]).
  - reflexivity.
  - split; [ discriminate | reflexivity ].
  - split; [ discriminate | reflexivity ].
  - repeat constructor; discriminate.
  - discriminate.
Defined.

Lemma _parse_revision_rejects_witness :
  ChatDriver._parse_revision "revise slides 1" = None.
Proof.
  apply _parse_revision_rejects. left. vm_compute. lia.
Defined.

Lemma revise_section_negative_index_witness :
  fst (revise generated "slides" (-1) "make it shorter") = Raise IndexError
  /\ snd (revise generated "slides" (-1) "make it shorter") = generated.
Proof.
  destruct (@revise_section_negative_index int_kernel generated "slides" (-1)%Z
              "make it shorter" 0%Z)
    as (_ & H2 & H3).
  - lia.
  - split; [ | exact H2 ].
    apply (H3 0 first_output); [ reflexivity | left; reflexivity ].
Defined.

End MoreRuns.

(* ------------------------------------------------------------------ *)
(** * From the document to the citations *)

Section SearchTotal.
Import PyList Types VectorStore.
Context `{FK : FloatKernel}.

Lemma argsort_rows (a : nat) (scores : list Score) :
  Forall (fun z => a <= fst z < a + length scores)
         (fold_right insert_index [] (combine (seq a (length scores)) scores)).
Proof.
  revert a. induction scores as [| s rest IH]; intros a; [ constructor | ].
  cbn [length seq combine fold_right]. specialize (IH (S a)).
  rewrite Forall_forall in IH |- *. intros z Hz.
  apply insert_index_In in Hz. destruct Hz as [-> | Hz].
  - cbn [fst]. lia.
  - specialize (IH z Hz). lia.
Qed.

Lemma collect_results_from (cs : list RetrievedChunk) (idx : list (nat * Score))
    (rs : list RetrievalResult) :
  collect_results cs idx = Ok rs ->
  Forall (fun r => In (chunk r) cs) rs /\ length rs = length idx.
Proof.
  revert rs. induction idx as [| [i s] idx IH]; intros rs; cbn [collect_results].
  - intros H. injection H as <-. split; [ constructor | reflexivity ].
  - destruct (nth_error cs i) as [c |] eqn:Hc; [ | discriminate ].
    destruct (collect_results cs idx) as [l | e]; [ | discriminate ].
    intros H. injection H as <-. destruct (IH l eq_refl) as [Hall Hlen].
    split; [ | cbn; rewrite Hlen; reflexivity ].
    constructor; [ cbn; eapply nth_error_In; exact Hc | exact Hall ].
Qed.

(** On a store built by [add] the search returns, whatever the scores and
    whatever [k]: it never raises, and its results are stored chunks, at
    most as many as the store holds. *)
Lemma search_total (st : VectorStore) (query_embedding : Embedding) (k : Z) :
  wf_store st ->
  exists rs,
    similarity_search st query_embedding k = Ok rs
    /\ Forall (fun r => In (chunk r) (chunks st)) rs
    /\ length rs <= length (chunks st).
Proof.
  intros Hwf. unfold similarity_search.
  destruct (embeddings st) as [| e es] eqn:Hemb.
  { exists []. split; [ reflexivity | split; [ constructor | cbn; lia ] ]. }
  set (scores := cosine_scores st query_embedding).
  assert (Hn : length scores = length (chunks st)).
  { unfold scores, cosine_scores. rewrite length_map. symmetry. exact Hwf. }
  assert (Hrows : Forall (fun z => fst z < length (chunks st)) (best_idx scores k)).
  { unfold best_idx, slice_last, argsort. apply Forall_rev.
    pose proof (argsort_rows 0 scores) as H. rewrite Forall_forall in H |- *.
    intros z Hz. apply skipn_In in Hz. specialize (H z Hz). lia. }
  destruct (collect_results_ok _ _ Hrows) as (rs & Hrs & _).
  exists rs. split; [ exact Hrs | ].
  destruct (collect_results_from _ _ _ Hrs) as [Hall Hlen].
  split; [ exact Hall | ].
  rewrite Hlen. unfold best_idx, slice_last, argsort.
  rewrite length_rev, length_skipn.
  assert (Hsort : forall l : list (nat * Score),
             length (fold_right insert_index [] l) = length l).
  { induction l as [| x l IH]; [ reflexivity | ].
    cbn [fold_right length]. rewrite insert_index_length, IH. reflexivity. }
  rewrite Hsort, length_combine, length_seq. lia.
Qed.

End SearchTotal.

Section EndToEnd.
Import PyStr PyList Types Chunker Generator Pipeline.
Context `{FK : FloatKernel} `{EB : !EmbeddingBackend} `{LM : LanguageModel}
        `{RT : !PyRuntime} `{DL : DocumentLoader}.

Lemma chunk_text_numbered (full_text : string) (page_map : list (Z * string))
    (config : ChunkConfig) :
  numbered (chunk_text full_text page_map config).
Proof.
  unfold chunk_text, chunk_loop. set (st := fold_left _ _ _).
  assert (Hst : numbered (chunks st)) by (apply chunk_loop_numbered; reflexivity).
  destruct (window st); [ exact Hst | apply numbered_snoc; exact Hst ].
Qed.

Lemma all_blocks_cite (instruction : string) (retrievals : list RetrievalResult)
    (config : GenerationConfig) (audience : AudienceProfile)
    (b : ContentBlock) (p : Provenance) :
  In b (all_blocks (rule_based_generate_outputs instruction retrievals config audience)) ->
  In p (provenance b) ->
  exists r, In r retrievals /\ chunk_id p = rc_chunk_id (chunk r).
Proof.
  intros Hb Hp.
  assert (Hsent : forall s, In s (collect_sentences retrievals) ->
                            In p (provenance s) ->
                            exists r, In r retrievals
                                      /\ chunk_id p = rc_chunk_id (chunk r)).
  { intros s Hs Hin. destruct (sentence_provenance _ _ Hs) as (r & Hr & Heq).
    rewrite Heq in Hin. destruct Hin as [<- | []]. exists r. split; [ exact Hr | reflexivity ]. }
  unfold all_blocks in Hb.
  rewrite !app_assoc, in_app_iff, <- !app_assoc in Hb. destruct Hb as [Hb | Hb].
  - destruct (per_sentence_block _ _ _ _ _ Hb) as (s & Hs & Heq).
    rewrite Heq in Hp. exact (Hsent s Hs Hp).
  - unfold rule_based_generate_outputs in Hb. cbn [linkedin_summaries] in Hb.
    destruct (include_linkedin config); [ | contradiction ].
    destruct Hb as [<- | []]. unfold linkedin_of in Hp. cbn [provenance] in Hp.
    apply in_flat_map in Hp. destruct Hp as (s & Hs & Hin).
    apply firstn_In in Hs. exact (Hsent s Hs Hin).
Qed.

Lemma from_chunks_wf (cs : list RetrievedChunk) (r : Retriever.Retriever) :
  Retriever.from_chunks cs = Ok r -> VectorStore.wf_store (Retriever.store r).
Proof.
  unfold Retriever.from_chunks. destruct (embed (map rc_text cs)) as [es |];
    [ | discriminate ].
  intros H. injection H as <-. apply add_all_wf.
Qed.

Lemma from_chunks_ids (cs : list RetrievedChunk) (r : Retriever.Retriever)
    (c : RetrievedChunk) :
  Retriever.from_chunks cs = Ok r ->
  In c (VectorStore.chunks (Retriever.store r)) ->
  In (rc_chunk_id c) (map rc_chunk_id cs).
Proof.
  unfold Retriever.from_chunks. destruct (embed (map rc_text cs)) as [es |];
    [ | discriminate ].
  intros H. injection H as <-. cbn [Retriever.store].
  destruct (add_all_from (combine cs es) VectorStore.empty) as [Hc _].
  unfold Retriever.add_all. rewrite Hc. cbn [VectorStore.empty VectorStore.chunks app].
  rewrite in_map_iff. intros ([c0 e0] & <- & Hin).
  apply in_combine_l in Hin. cbn. apply in_map. exact Hin.
Qed.


End EndToEnd.

Section EndToEndRuns.
Import PyStr Types Fixtures Generator.


End EndToEndRuns.
